(** * SteamDB_gamebot: the free-games change-detection loop of [main.py]

    A shallow embedding of the Steam catalogue fetcher ([SteamAPI]) and of the
    polling cycle ([check_free_games]) that announces newly free games, with
    the properties of the fetch / filter / de-duplicate / diff / notify
    pipeline proved about it. *)

From Stdlib Require Import ZArith QArith Qround Qcanon Qabs Qpower String Ascii List Lia.
From stdpp Require Import base decidable countable gmap sets list strings pretty.

Open Scope string_scope.
Open Scope list_scope.
Open Scope Z_scope.

(** ** Python values

    The objects the program handles: what [response.json()] decodes, and the
    values stored in the dictionaries the fetcher builds.  A dictionary keeps
    its items in insertion order.  A [float] is represented by the rational
    number it denotes (every finite float is one); NaN and the infinities,
    which standard JSON cannot express, are not represented.  The result of
    an operation on floats is rounded to the nearest binary64, as Python
    rounds it ([binary64] below). *)

#[warnings="-register-all"]
Inductive pyval : Type :=
  | PyNone
  | PyBool (b : bool)
  | PyInt (z : Z)
  | PyFloat (q : Q)
  | PyStr (s : string)
  | PyList (items : list pyval)
  | PyDict (items : list (string * pyval)).

(** ** Exceptions

    All of them derive from [Exception], so [except Exception] catches each. *)

Inductive exn : Type :=
  | AttributeError      (* [.get] on an object that has no such method *)
  | TypeError           (* wrong operand type, not iterable, unhashable *)
  | ValueError
  | OverflowError       (* integer too large for a float *)
  | ClientError         (* aiohttp: the request could not be carried out *)
  | JSONDecodeError     (* [response.json()] on a body that is not JSON *)
  | HTTPException.      (* discord: the message could not be sent *)

Inductive result (A : Type) : Type :=
  | Ok (a : A)
  | Raise (e : exn).
Arguments Ok {A} a.
Arguments Raise {A} e.

(** ** Computations: mutable state and exceptions

    [Py S A] is a Python computation over mutable state [S] that returns an
    [A] or raises.  The state reached when an exception is raised is kept:
    what was appended to a list before the exception is still there in the
    handler and after it. *)

Definition Py (S A : Type) : Type := S -> S * result A.

Definition ret {S A} (a : A) : Py S A := fun s => (s, Ok a).

Definition raise {S A} (e : exn) : Py S A := fun s => (s, Raise e).

Definition bind {S A B} (m : Py S A) (k : A -> Py S B) : Py S B :=
  fun s =>
    match m s with
    | (s', Ok a) => k a s'
    | (s', Raise e) => (s', Raise e)
    end.

Definition get_state {S} : Py S S := fun s => (s, Ok s).

Definition modify {S} (f : S -> S) : Py S unit := fun s => (f s, Ok tt).

(** [try: body / except Exception as e: handler e] *)
Definition try_except {S A} (body : Py S A) (handler : exn -> Py S A) : Py S A :=
  fun s =>
    match body s with
    | (s', Ok a) => (s', Ok a)
    | (s', Raise e) => handler e s'
    end.

Declare Scope py_scope.
Delimit Scope py_scope with py.
Notation "x <- m ;; k" := (bind m (fun x => k))
  (at level 100, m at next level, right associativity) : py_scope.
Notation "m ;; k" := (bind m (fun _ => k))
  (at level 100, right associativity) : py_scope.
Open Scope py_scope.

(** [for x in xs: body x] *)
Fixpoint for_each {S A} (xs : list A) (body : A -> Py S unit) : Py S unit :=
  match xs with
  | [] => ret tt
  | x :: rest => body x ;; for_each rest body
  end.

(** A pure, possibly raising, computation run on its own. *)
Definition lift {S A} (r : result A) : Py S A := fun s => (s, r).

(** ** Built-in operations *)

Fixpoint dict_lookup (k : string) (items : list (string * pyval)) : option pyval :=
  match items with
  | [] => None
  | (k', v) :: rest => if String.eqb k k' then Some v else dict_lookup k rest
  end.

(** [o.get(k, default)]: only dictionaries have the method. *)
Definition py_get {S} (o : pyval) (k : string) (default_value : pyval) : Py S pyval :=
  match o with
  | PyDict items => ret (default default_value (dict_lookup k items))
  | _ => raise AttributeError
  end.

(** The elements [for x in o] goes through: the items of a list, the keys of
    a dictionary, the characters of a string (one per byte here). *)
Definition py_iter {S} (o : pyval) : Py S (list pyval) :=
  match o with
  | PyList items => ret items
  | PyDict items => ret (map (fun kv => PyStr (fst kv)) items)
  | PyStr s => ret (map (fun c => PyStr (String c EmptyString)) (list_ascii_of_string s))
  | _ => raise TypeError
  end.

(** Truth value of an object, as [if o] takes it. *)
Definition py_truthy (o : pyval) : bool :=
  match o with
  | PyNone => false
  | PyBool b => b
  | PyInt z => negb (z =? 0)
  | PyFloat q => negb (Qeq_bool q 0)
  | PyStr s => negb (String.eqb s "")
  | PyList items => negb (Nat.eqb (length items) 0)
  | PyDict items => negb (Nat.eqb (length items) 0)
  end.

(** [o == n] for an integer literal [n]: numbers compare by value, [True]
    and [False] as 1 and 0, anything else is different from a number. *)
Definition py_eq_int (o : pyval) (n : Z) : bool :=
  match o with
  | PyBool b => (if b then 1 else 0) =? n
  | PyInt z => z =? n
  | PyFloat q => Qeq_bool q (inject_Z n)
  | _ => false
  end.

(** The least magnitude that no longer rounds to a finite binary64 (half an
    ulp below [2 ^ 1024]; the tie rounds up). *)
Definition float_limit : Z := 2 ^ 1024 - 2 ^ 970.

(** ** Rounding to a float

    [binary64 x] is the binary64 float nearest to the rational [x], a tie
    going to the even significand: 53 bits of significand from the binade of
    [x], and below [2 ^ -1022] the fixed spacing [2 ^ -1074] of the
    subnormals.  Python's true division and its conversion of an integer to
    a float return it for an exact result [x] of magnitude below
    [float_limit]. *)

(** The integer nearest to [a / b], for [0 <= a] and [0 < b]; a tie goes to
    the even one. *)
Definition round_ties_even (a b : Z) : Z :=
  let m := a / b in
  match 2 * (a mod b) ?= b with
  | Lt => m
  | Gt => m + 1
  | Eq => if Z.even m then m else m + 1
  end.

(** The binade of [n / d], for [0 < n]: the [e] with
    [2 ^ e <= n / d < 2 ^ (e + 1)]. *)
Definition binade (n : Z) (d : positive) : Z :=
  let e0 := Z.log2 n - Z.log2 (Z.pos d) in
  if (if 0 <=? e0 then Z.pos d * 2 ^ e0 <=? n else Z.pos d <=? n * 2 ^ (- e0))
  then e0 else e0 - 1.

(** The exponent of the spacing of the floats around [n / d]. *)
Definition ulp_exponent (n : Z) (d : positive) : Z :=
  Z.max (binade n d) (-1022) - 52.

(** The float nearest to [n / d], for [0 < n]. *)
Definition nearest_float (n : Z) (d : positive) : Q :=
  let u := ulp_exponent n d in
  Qred (if 0 <=? u
        then inject_Z (round_ties_even n (Z.pos d * 2 ^ u) * 2 ^ u)
        else round_ties_even (n * 2 ^ (- u)) (Z.pos d) # Z.to_pos (2 ^ (- u))).

Definition binary64 (x : Q) : Q :=
  match Qnum x with
  | 0 => 0
  | Z.pos n => nearest_float (Z.pos n) (Qden x)
  | Z.neg n => - nearest_float (Z.pos n) (Qden x)
  end.

(** [2 ^ e <= n / d], in integers. *)
Definition reaches (e n : Z) (d : positive) : Prop :=
  if 0 <=? e then Z.pos d * 2 ^ e <= n else Z.pos d <= n * 2 ^ (- e).

(** The spacing of the floats around [x]. *)
Definition ulp (x : Q) : Q :=
  match Qnum x with
  | 0 => 0
  | Z.pos n | Z.neg n => 2 ^ ulp_exponent (Z.pos n) (Qden x)
  end.

(** [o / 100], true division: the float nearest to the quotient for a
    number, [OverflowError] when the quotient of an integer is beyond the
    floats, [TypeError] for any other operand. *)
Definition py_div_100 {S} (o : pyval) : Py S pyval :=
  match o with
  | PyBool b => ret (PyFloat (binary64 (inject_Z (if b then 1 else 0) / 100)))
  | PyInt z =>
      if 100 * float_limit <=? Z.abs z then raise OverflowError
      else ret (PyFloat (binary64 (inject_Z z / 100)))
  | PyFloat q => ret (PyFloat (binary64 (q / 100)))
  | _ => raise TypeError
  end.

(** Identity of an object as a member of a [set]: equal objects have equal
    keys, so [True], [1] and [1.0] are one member. *)
Inductive hkey : Type :=
  | HNone
  | HNum (q : Qc)
  | HStr (s : string).

#[global] Instance hkey_eq_dec : EqDecision hkey.
Proof. solve_decision. Defined.

#[global] Instance hkey_countable : Countable hkey.
Proof.
  refine (inj_countable'
    (fun k => match k with
              | HNone => inl tt
              | HNum q => inr (inl q)
              | HStr s => inr (inr s)
              end)
    (fun c => match c with
              | inl _ => HNone
              | inr (inl q) => HNum q
              | inr (inr s) => HStr s
              end) _).
  intros []; reflexivity.
Defined.

(** [hash(o)]: lists and dictionaries are unhashable. *)
Definition hash_key (o : pyval) : option hkey :=
  match o with
  | PyNone => Some HNone
  | PyBool b => Some (HNum (Q2Qc (inject_Z (if b then 1 else 0))))
  | PyInt z => Some (HNum (Q2Qc (inject_Z z)))
  | PyFloat q => Some (HNum (Q2Qc q))
  | PyStr s => Some (HStr s)
  | PyList _ | PyDict _ => None
  end.

Definition py_hash {S} (o : pyval) : Py S hkey :=
  match hash_key o with
  | Some k => ret k
  | None => raise TypeError
  end.

(** ** Text rendering done by the Python runtime

    The digits of a float, the [repr] of a container and the calendar are
    the runtime's business; the program only concatenates what they give. *)

Class PyText : Type := {
  (** [repr] of a float, a list or a dictionary *)
  py_repr : pyval -> string;
  (** [format(x, ".2f")] of a float *)
  fixed2 : Q -> string;
  (** [datetime.fromtimestamp(o, tz=timezone.utc).strftime("%Y-%m-%d %H:%M UTC")],
      which raises when [o] is no number or beyond the calendar *)
  utc_minute : pyval -> result string
}.

(** What an f-string puts for [{o}]. *)
Definition py_str `{PyText} (o : pyval) : string :=
  match o with
  | PyNone => "None"
  | PyBool true => "True"
  | PyBool false => "False"
  | PyInt z => pretty z
  | PyStr s => s
  | PyFloat _ | PyList _ | PyDict _ => py_repr o
  end.

(** [f"{o:.2f}"]: numbers only; an integer is converted to a float first. *)
Definition py_format_2f `{PyText} {S} (o : pyval) : Py S string :=
  match o with
  | PyBool b => ret (fixed2 (inject_Z (if b then 1 else 0)))
  | PyInt z =>
      if float_limit <=? Z.abs z then raise OverflowError
      else ret (fixed2 (binary64 (inject_Z z)))
  | PyFloat q => ret (fixed2 q)
  | PyStr _ => raise ValueError
  | PyNone | PyList _ | PyDict _ => raise TypeError
  end.

(** ** The record of a free game

    The dictionary [get_featured_free_games] builds for an entry it keeps;
    its six keys are the fields. *)

Record free_game : Type := {
  name : pyval;
  image_url : pyval;
  status : string;
  store_url : string;
  original_price : pyval;
  discount_end : pyval
}.

(** What the featured-categories request came to. *)
Inductive http_reply : Type :=
  | RequestFailed
      (* [session.get] raised: no connection, timeout, ... *)
  | Response (status_code : Z) (json : option pyval).
      (* [json] is what [response.json()] returns, [None] when it raises *)

(** Runs a computation on local variables initialised to [init]. *)
Definition run_local {S A} (m : Py S A) (init : S) : result A := snd (m init).

(** ** The fetcher

    The aiohttp session ([ensure_session], [close]) only carries the request:
    what the request came to is the input [reply].  The calls to the logger
    in the fetcher write text and change nothing else; they are left out.
    The second source, [get_special_free_games], is never called. *)

Module SteamAPI.
Section WithRuntime.
Context `{PyText}.

Definition self_store_url : string := "https://store.steampowered.com".

(** The dictionary built for a kept entry (lines 60-67). *)
Definition free_game_of {S} (game : pyval) : Py S free_game :=
  nm <- py_get game "name" PyNone ;;
  img <- py_get game "large_capsule_image" PyNone ;;
  id <- py_get game "id" PyNone ;;
  cond <- py_get game "original_price" PyNone ;;
  price <- (if py_truthy cond
            then raw <- py_get game "original_price" (PyInt 0) ;; py_div_100 raw
            else ret (PyInt 0)) ;;
  expiry <- py_get game "discount_expiration" (PyInt 0) ;;
  ret {| name := nm;
         image_url := img;
         status := "Free to Keep!";
         store_url := self_store_url +:+ "/app/" +:+ py_str id;
         original_price := price;
         discount_end := expiry |}.

(** The body of the loop over the specials (lines 58-67); the state is the
    list [free_games]. *)
Definition keep_if_free (game : pyval) : Py (list free_game) unit :=
  discount <- py_get game "discount_percent" PyNone ;;
  if py_eq_int discount 100 then
    g <- free_game_of game ;;
    modify (fun free_games => free_games ++ [g])
  else ret tt.

(** The body of the [try] (lines 52-67). *)
Definition featured_request (reply : http_reply) : Py (list free_game) unit :=
  match reply with
  | RequestFailed => raise ClientError
  | Response status_code json =>
      if status_code =? 200 then
        data <- lift (match json with
                      | Some v => Ok v
                      | None => Raise JSONDecodeError
                      end) ;;
        section <- py_get data "specials" (PyDict []) ;;
        specials <- py_get section "items" (PyList []) ;;
        entries <- py_iter specials ;;
        for_each entries keep_if_free
      else ret tt
  end.

Definition get_featured_free_games (reply : http_reply) : result (list free_game) :=
  run_local
    (try_except (featured_request reply) (fun e => ret tt (* logged *)) ;;
     get_state)
    [].

(** The loop that removes duplicates (lines 110-115); the state is the pair
    of [seen] and [unique_games]. *)
Definition keep_if_unseen (game : free_game)
  : Py (gset hkey * list free_game) unit :=
  k <- py_hash (name game) ;;
  st <- get_state ;;
  if decide (k ∈ st.1) then ret tt
  else modify (fun '(seen, unique_games) => ({[k]} ∪ seen, unique_games ++ [game])).

Definition unique_by_name (free_games : list free_game) : result (list free_game) :=
  run_local
    (for_each free_games keep_if_unseen ;;
     st <- get_state ;;
     ret st.2)
    (∅, []).

(** The caller compares the result with [None]: the returned object is a
    list or [None]. *)
Definition get_all_free_games (reply : http_reply)
  : result (option (list free_game)) :=
  run_local
    (featured_games <- lift (get_featured_free_games reply) ;;
     (if negb (Nat.eqb (length featured_games) 0)
      then modify (fun free_games => free_games ++ featured_games)
      else ret tt) ;;
     free_games <- get_state ;;
     unique_games <- lift (unique_by_name free_games) ;;
     ret (Some unique_games))
    [].

End WithRuntime.
End SteamAPI.

(** ** The chat side *)

Definition newline : string := String (ascii_of_nat 10) EmptyString.

(** A [discord.Embed] as the cycle fills it. *)
Record Embed : Type := {
  title : pyval;
  description : string;
  url : string;
  thumbnail : option pyval;
  fields : list (string * string)
}.

Definition set_thumbnail (embed : Embed) (image : pyval) : Embed :=
  {| title := title embed; description := description embed; url := url embed;
     thumbnail := Some image; fields := fields embed |}.

Definition add_field (embed : Embed) (field_name value : string) : Embed :=
  {| title := title embed; description := description embed; url := url embed;
     thumbnail := thumbnail embed;
     fields := fields embed ++ [(field_name, value)] |}.

Record Role : Type := { mention : string }.

(** What the cycle writes to the logger. *)
Inductive log_record : Type :=
  | Checking
  | FailedToFetch
  | ChannelNotFound
  | RoleNotFound
  | CurrentFreeGames (keys : gset string)
  | NewGamesDetected (names : list pyval)
  | Notified (game_name : pyval)
  | ErrorSending (game_name : pyval) (e : exn).

(** How a cycle ended: which [return] it took, or the end of the body. *)
Inductive cycle_exit : Type :=
  | FetchFailed
  | NoChannel
  | NoRole
  | Completed.

Section Cycle.
Context `{PyText}.

(** The chat platform: its state, the channel objects, and what
    [channel.send(content, embed=embed)] does, which may raise. *)
Variable chat : Type.
Variable Channel : Type.
Variable channel_send : Channel -> string -> Embed -> Py chat unit.

(** The globals the cycle works on. *)
Record bot : Type := {
  previous_games : gset string;
  discord : chat;
  log : list log_record
}.

Definition logger (r : log_record) : Py bot unit :=
  modify (fun b => {| previous_games := previous_games b;
                      discord := discord b;
                      log := log b ++ [r] |}).

(** The bot after the logger wrote [records]. *)
Definition logged (b : bot) (records : list log_record) : bot :=
  {| previous_games := previous_games b;
     discord := discord b;
     log := log b ++ records |}.

(** An action of the chat platform, run on the bot's connection. *)
Definition on_discord {A} (m : Py chat A) : Py bot A :=
  fun b =>
    let '(c, r) := m (discord b) in
    ({| previous_games := previous_games b; discord := c; log := log b |}, r).

Definition set_previous_games (f : gset string -> gset string) : Py bot unit :=
  modify (fun b => {| previous_games := f (previous_games b);
                      discord := discord b;
                      log := log b |}).

(** [f"{game['name']} - {game['status']}"] *)
Definition identity_key (game : free_game) : string :=
  py_str (name game) +:+ " - " +:+ status game.

(** Line 161. *)
Definition current_games (games : list free_game) : gset string :=
  list_to_set (identity_key <$> games).

(** Line 162. *)
Definition new_games (previous : gset string) (games : list free_game)
  : list free_game :=
  filter (fun game => identity_key game ∉ previous) games.

(** The embed of a game (lines 169-182). *)
Definition offer_embed {S} (game : free_game) : Py S Embed :=
  price <- py_format_2f (original_price game) ;;
  let embed :=
    {| title := name game;
       description := status game +:+ newline +:+ "Original Price: $" +:+ price;
       url := store_url game;
       thumbnail := None;
       fields := [] |} in
  let embed := set_thumbnail embed (image_url game) in
  embed <- (if py_truthy (discount_end game)
            then end_time <- lift (utc_minute (discount_end game)) ;;
                 ret (add_field embed "Offer Ends" end_time)
            else ret embed) ;;
  ret (add_field embed "Store Page" ("[Click here](" +:+ store_url game +:+ ")")).

Definition greeting (role : Role) : string :=
  "Hey " +:+ mention role +:+ ", a new free game is available!".

(** The body of the [try] of the notification loop (lines 169-184). *)
Definition notify (channel : Channel) (role : Role) (game : free_game)
  : Py bot unit :=
  embed <- offer_embed game ;;
  on_discord (channel_send channel (greeting role) embed) ;;
  logger (Notified (name game)).

(** One iteration of the notification loop (lines 168-186). *)
Definition notify_guarded (channel : Channel) (role : Role) (game : free_game)
  : Py bot unit :=
  try_except (notify channel role game)
             (fun e => logger (ErrorSending (name game) e)).

(** One cycle: [reply] is what the request of this cycle came to, [channel]
    what [bot.get_channel] found and [role] what the role lookup found. *)
Definition check_free_games (reply : http_reply) (channel : option Channel)
    (role : option Role) : Py bot cycle_exit :=
  logger Checking ;;
  games <- lift (SteamAPI.get_all_free_games reply) ;;
  match games with
  | None => logger FailedToFetch ;; ret FetchFailed
  | Some games =>
      match channel with
      | None => logger ChannelNotFound ;; ret NoChannel
      | Some channel =>
          match role with
          | None => logger RoleNotFound ;; ret NoRole
          | Some role =>
              b <- get_state ;;
              let current := current_games games in
              let added := new_games (previous_games b) games in
              logger (CurrentFreeGames current) ;;
              logger (NewGamesDetected (name <$> added)) ;;
              for_each added (notify_guarded channel role) ;;
              set_previous_games (fun _ => ∅) ;;
              set_previous_games (fun previous => previous ∪ current) ;;
              ret Completed
          end
      end
  end.

End Cycle.

Arguments previous_games {chat} _.
Arguments discord {chat} _.
Arguments log {chat} _.
Arguments logger {chat} r.
Arguments logged {chat} b records.
Arguments on_discord {chat A} m.
Arguments set_previous_games {chat} f.
Arguments notify {_ chat Channel} channel_send channel role game.
Arguments notify_guarded {_ chat Channel} channel_send channel role game.
Arguments check_free_games {_ chat Channel} channel_send reply channel role.

(** ** Notions the properties are stated with *)

(** The value an entry of the catalogue has under a key, if it has one. *)
Definition field (entry : pyval) (k : string) : option pyval :=
  match entry with
  | PyDict items => dict_lookup k items
  | _ => None
  end.

(** The discount percentage of the entry is exactly 100. *)
Definition fully_discounted (entry : pyval) : bool :=
  match field entry "discount_percent" with
  | Some v => py_eq_int v 100
  | None => false
  end.

(** A raw price the fetcher can normalise: none, a falsy one, or a number
    whose hundredth is a float. *)
Definition price_ok (raw : option pyval) : bool :=
  match raw with
  | None => true
  | Some v =>
      negb (py_truthy v) ||
      match v with
      | PyBool _ | PyFloat _ => true
      | PyInt z => Z.abs z <? 100 * float_limit
      | _ => false
      end
  end.

(** An entry the scan gets past: an object, with a price it can normalise
    when it is kept. *)
Definition well_formed_entry (entry : pyval) : bool :=
  match entry with
  | PyDict items =>
      negb (fully_discounted entry) || price_ok (dict_lookup "original_price" items)
  | _ => false
  end.

(** The number a Python number denotes. *)
Definition number_value (o : pyval) : option Q :=
  match o with
  | PyBool b => Some (inject_Z (if b then 1 else 0))
  | PyInt z => Some (inject_Z z)
  | PyFloat q => Some q
  | _ => None
  end.

(** The record the fetcher builds for an entry, on its own. *)
Definition record_of `{PyText} (entry : pyval) : result free_game :=
  run_local (SteamAPI.free_game_of entry) tt.

(** The name of a record can be a member of a set. *)
Definition hashable_name (game : free_game) : Prop :=
  is_Some (hash_key (name game)).

(** The set member the name of a record is. *)
Definition name_key (game : free_game) : hkey :=
  default HNone (hash_key (name game)).

(** Occurrences of a name that was met before, [earlier] being the names met
    so far. *)
Fixpoint repeats (earlier : list hkey) (games : list free_game) : nat :=
  match games with
  | [] => 0%nat
  | game :: rest =>
      ((if bool_decide (name_key game ∈ earlier) then 1 else 0)
       + repeats (name_key game :: earlier) rest)%nat
  end.

Definition duplicates_beyond_first (games : list free_game) : nat :=
  repeats [] games.

(** The names the notification loop reported on, sent or failed, in order. *)
Definition reported (records : list log_record) : list pyval :=
  omap (fun r => match r with
                 | Notified n => Some n
                 | ErrorSending n _ => Some n
                 | _ => None
                 end) records.

(** ** A runtime to run the model with

    Plain renderings, enough to run the model on concrete catalogues: two
    decimals by rounding half to even, the calendar date of an instant by the
    usual day-count arithmetic, and a placeholder for the [repr] of floats
    and containers, which no example below prints. *)

Module Reference.

Definition two_digits (n : Z) : string :=
  (if n <? 10 then "0" else "") +:+ pretty n.

Definition round_half_even (q : Q) : Z :=
  let f := Qfloor q in
  let r := (q - inject_Z f)%Q in
  match (r ?= 1 # 2)%Q with
  | Lt => f
  | Gt => f + 1
  | Eq => if Z.even f then f else f + 1
  end.

Definition two_decimals (q : Q) : string :=
  let cents := round_half_even (q * 100)%Q in
  (if (cents <? 0) || ((cents =? 0) && negb (Qle_bool 0 q)) then "-" else "")
  +:+ pretty (Z.abs cents / 100) +:+ "." +:+ two_digits (Z.abs cents mod 100).

(** Year, month and day of the day [days] after 1970-01-01. *)
Definition civil_of_days (days : Z) : Z * Z * Z :=
  let z := days + 719468 in
  let era := z / 146097 in
  let doe := z - era * 146097 in
  let yoe := (doe - doe / 1460 + doe / 36524 - doe / 146096) / 365 in
  let doy := doe - (365 * yoe + yoe / 4 - yoe / 100) in
  let mp := (5 * doy + 2) / 153 in
  let d := doy - (153 * mp + 2) / 5 + 1 in
  let m := if mp <? 10 then mp + 3 else mp - 9 in
  let y := yoe + era * 400 + (if m <=? 2 then 1 else 0) in
  (y, m, d).

Definition four_digits (n : Z) : string :=
  (if n <? 10 then "000" else if n <? 100 then "00" else if n <? 1000 then "0" else "")
  +:+ pretty n.

Definition minute_of_instant (t : Z) : result string :=
  if (t <? -62135596800) || (253402300799 <? t) then Raise ValueError
  else
    let '(y, m, d) := civil_of_days (t / 86400) in
    let secs := t mod 86400 in
    Ok (four_digits y +:+ "-" +:+ two_digits m +:+ "-" +:+ two_digits d +:+ " "
        +:+ two_digits (secs / 3600) +:+ ":" +:+ two_digits (secs mod 3600 / 60)
        +:+ " UTC").

Definition minute_of (o : pyval) : result string :=
  match o with
  | PyBool b => minute_of_instant (if b then 1 else 0)
  | PyInt z => minute_of_instant z
  | PyFloat q => minute_of_instant (Qfloor q)
  | _ => Raise TypeError
  end.

#[export] Instance text : PyText :=
  {| py_repr := fun _ => "<object>";
     fixed2 := two_decimals;
     utc_minute := minute_of |}.

(** A chat that records what was delivered and refuses every embed whose
    title is in [refused]. *)
Definition chat : Type := list (string * Embed).

Definition send (refused : list string) (channel : unit) (content : string)
    (embed : Embed) : Py chat unit :=
  match title embed with
  | PyStr s =>
      if bool_decide (s ∈ refused) then raise HTTPException
      else modify (fun delivered => delivered ++ [(content, embed)])
  | _ => modify (fun delivered => delivered ++ [(content, embed)])
  end.

Definition start : bot chat :=
  {| previous_games := ∅; discord := []; log := [] |}.

(** The reply whose "specials" collection holds [entries]. *)
Definition featured (entries : list pyval) : http_reply :=
  Response 200 (Some (PyDict [("specials", PyDict [("items", PyList entries)])])).

Definition entry (title : string) (discount price : Z) : pyval :=
  PyDict [("id", PyInt 440); ("name", PyStr title);
          ("discount_percent", PyInt discount); ("original_price", PyInt price);
          ("large_capsule_image", PyStr "https://cdn.example/capsule.jpg");
          ("discount_expiration", PyInt 1700000000)].

(** The record the fetcher builds for [entry title 100 price], [price]
    being positive. *)
Definition offer (title : string) (price : positive) : free_game :=
  {| name := PyStr title;
     image_url := PyStr "https://cdn.example/capsule.jpg";
     status := "Free to Keep!";
     store_url := "https://store.steampowered.com/app/440";
     original_price := PyFloat (binary64 (inject_Z (Z.pos price) / 100));
     discount_end := PyInt 1700000000 |}.

(** A record with a status of one's choice. *)
Definition labelled (title label : string) : free_game :=
  {| name := PyStr title;
     image_url := PyNone;
     status := label;
     store_url := "https://store.steampowered.com/app/440";
     original_price := PyInt 0;
     discount_end := PyInt 0 |}.

Definition role : Role := {| mention := "@Free Games" |}.

Definition catalogue : list pyval :=
  [entry "Alpha" 100 1999; entry "Beta" 99 500; entry "Alpha" 100 1999;
   entry "Gamma" 100 250].

Definition fetched : list free_game := [offer "Alpha" 1999; offer "Gamma" 250].

Definition specials_section : list (string * pyval) :=
  [("items", PyList catalogue)].

Definition featured_data : list (string * pyval) :=
  [("specials", PyDict specials_section)].

(** A bot that remembers a game that is no longer free. *)
Definition stale : bot chat :=
  {| previous_games := {["Old - Free to Keep!"]}; discord := []; log := [] |}.

(** An entry with nothing but a name and its discount. *)
Definition bare_items : list (string * pyval) :=
  [("name", PyStr "Delta"); ("discount_percent", PyInt 100)].

Definition bare_offer : free_game :=
  {| name := PyStr "Delta";
     image_url := PyNone;
     status := "Free to Keep!";
     store_url := "https://store.steampowered.com/app/None";
     original_price := PyInt 0;
     discount_end := PyInt 0 |}.

(** A kept entry whose name is a list. *)
Definition unhashable_reply : http_reply :=
  featured [PyDict [("discount_percent", PyInt 100); ("name", PyList [])]].

End Reference.

(** ** The second source

    [get_special_free_games] asks for the specials page and looks for
    "-100%" in its text; what it does when the text has it is [pass]. *)

(** What the request for the specials page came to. *)
Inductive page_reply : Type :=
  | PageFailed
      (* [session.get] raised *)
  | Page (status_code : Z) (text : option string).
      (* [text] is what [response.text()] returns, [None] when it raises *)

(** [needle in text] for two strings. *)
Definition py_contains (needle text : string) : bool :=
  match String.index 0 needle text with
  | Some _ => true
  | None => false
  end.

(** The body of the [try] (lines 80-93). *)
Definition special_request (reply : page_reply) : Py (list free_game) unit :=
  match reply with
  | PageFailed => raise ClientError
  | Page status_code text =>
      if status_code =? 200 then
        page <- lift (match text with
                      | Some t => Ok t
                      | None => Raise ValueError
                      end) ;;
        if py_contains "-100%" page then ret tt else ret tt
      else ret tt
  end.

Definition get_special_free_games (reply : page_reply) : result (list free_game) :=
  run_local
    (try_except (special_request reply) (fun e => ret tt (* logged *)) ;;
     get_state)
    [].

(** ** The session of the fetcher

    A [SteamAPI] object holds its [aiohttp.ClientSession] or [None].  The
    calls it makes to aiohttp are recorded: the creation of a session, which
    gets the next serial number, and its closing. *)

Inductive session_event : Type :=
  | SessionCreated (serial : nat)
  | SessionClosed (serial : nat).

Record steam_api : Type := {
  session : option nat;
  aiohttp : list session_event
}.

(** [SteamAPI()] *)
Definition new_steam_api : steam_api := {| session := None; aiohttp := [] |}.

(** Lines 37-39. *)
Definition ensure_session : Py steam_api unit :=
  fun self =>
    match session self with
    | None =>
        let serial := length (aiohttp self) in
        ({| session := Some serial;
            aiohttp := aiohttp self ++ [SessionCreated serial] |}, Ok tt)
    | Some _ => (self, Ok tt)
    end.

(** Lines 41-44. *)
Definition close : Py steam_api unit :=
  fun self =>
    match session self with
    | Some serial =>
        ({| session := None;
            aiohttp := aiohttp self ++ [SessionClosed serial] |}, Ok tt)
    | None => (self, Ok tt)
    end.

(** The fetch of a cycle with its session (lines 143-145): the first thing
    [get_all_free_games] does, through [get_featured_free_games], is
    [ensure_session]. *)
Definition fetch_games `{PyText} (reply : http_reply)
  : Py steam_api (option (list free_game)) :=
  games <- (ensure_session ;; lift (SteamAPI.get_all_free_games reply)) ;;
  close ;;
  ret games.

(** A call on a [SteamAPI] object that touches its session. *)
Inductive session_call : Type :=
  | EnsureSession
  | Close.

Definition run_session_call (c : session_call) : Py steam_api unit :=
  match c with
  | EnsureSession => ensure_session
  | Close => close
  end.

(** How many sessions were created, and how many closed. *)
Definition created (events : list session_event) : nat :=
  length (List.filter (fun e => match e with SessionCreated _ => true | _ => false end)
                      events).

Definition closed (events : list session_event) : nat :=
  length (List.filter (fun e => match e with SessionClosed _ => true | _ => false end)
                      events).

(** Sessions created, sessions closed and the session held are in
    balance. *)
Definition balanced (self : steam_api) : Prop :=
  created (aiohttp self)
  = (closed (aiohttp self) + match session self with Some _ => 1 | None => 0 end)%nat.

(** ** Cycle after cycle *)

Section Polling.
Context `{PyText}.
Variable chat : Type.
Variable Channel : Type.
Variable channel_send : Channel -> string -> Embed -> Py chat unit.

(** What one run of the cycle meets: the reply to its request and what the
    lookups of the channel and of the role give. *)
Record tick : Type := {
  tick_reply : http_reply;
  tick_channel : option Channel;
  tick_role : option Role
}.

(** The bot after the cycle ran once for each tick, by the timer or by the
    command; a run that raises leaves the bot as it was when it raised. *)
Definition run_cycles (ticks : list tick) (b : bot chat) : bot chat :=
  fold_left
    (fun b t =>
       (check_free_games channel_send (tick_reply t) (tick_channel t) (tick_role t) b).1)
    ticks b.

End Polling.

Arguments tick_reply {Channel} _.
Arguments tick_channel {Channel} _.
Arguments tick_role {Channel} _.
Arguments Build_tick {Channel} _ _ _.
Arguments run_cycles {_ chat Channel} channel_send ticks b.

(** A request that gave no catalogue: it could not be carried out, its status
    is not 200, or its body cannot be decoded. *)
Definition request_failed (reply : http_reply) : bool :=
  match reply with
  | RequestFailed => true
  | Response status_code json =>
      negb (status_code =? 200) || match json with None => true | Some _ => false end
  end.

(** The name of the record is a string. *)
Definition string_named (game : free_game) : Prop :=
  exists s, name game = PyStr s.

(** ** More catalogues to run the model on *)

Module Samples.
Import Reference.

(** An entry whose price is a string. *)
Definition string_price : pyval :=
  PyDict [("name", PyStr "Beta"); ("discount_percent", PyInt 100);
          ("original_price", PyStr "19.99")].

(** A collection with an entry the scan cannot process in its middle. *)
Definition broken_section : list (string * pyval) :=
  [("items", PyList ([entry "Alpha" 100 1999] ++ string_price
                       :: [entry "Gamma" 100 250]))].

Definition broken_data : list (string * pyval) :=
  [("specials", PyDict broken_section)].

(** A game whose offer ends beyond the year 9999. *)
Definition far_expiry : free_game :=
  {| name := PyStr "Omega";
     image_url := PyNone;
     status := "Free to Keep!";
     store_url := "https://store.steampowered.com/app/7";
     original_price := PyInt 0;
     discount_end := PyInt 999999999999999 |}.

(** A day of polling: a catalogue, an outage, the catalogue again with the
    channel gone, then a smaller catalogue. *)
Definition day : list (tick unit) :=
  [ {| tick_reply := featured catalogue;
       tick_channel := Some tt; tick_role := Some role |};
    {| tick_reply := Response 503 None;
       tick_channel := Some tt; tick_role := Some role |};
    {| tick_reply := featured catalogue;
       tick_channel := None; tick_role := Some role |};
    {| tick_reply := featured [entry "Gamma" 100 250];
       tick_channel := Some tt; tick_role := Some role |} ].

End Samples.

(** * Properties *)

(** ** Computations *)

Section Computations.
Context {S A : Type}.

Lemma for_each_app (xs ys : list A) (body : A -> Py S unit) (s : S) :
  for_each (xs ++ ys) body s = (for_each xs body ;; for_each ys body) s.
Proof.
  revert s. induction xs as [|x xs IH]; intros s; simpl.
  - reflexivity.
  - unfold bind in *. destruct (body x s) as [s' [[]|e]]; [|reflexivity].
    apply IH.
Qed.

(** A loop whose body never raises never raises. *)
Lemma for_each_total (xs : list A) (body : A -> Py S unit) :
  (forall x s, (body x s).2 = Ok tt) ->
  forall s, (for_each xs body s).2 = Ok tt.
Proof.
  intros Hbody. induction xs as [|x xs IH]; intros s; simpl; [reflexivity|].
  unfold bind. specialize (Hbody x s).
  destruct (body x s) as [s' [[]|e]]; simpl in Hbody; [apply IH | discriminate].
Qed.

(** A property of the state kept by every iteration is kept by the loop,
    whether it ends or raises. *)
Lemma for_each_preserves (P : S -> Prop) (xs : list A) (body : A -> Py S unit) :
  (forall x s, P s -> P (body x s).1) ->
  forall s, P s -> P (for_each xs body s).1.
Proof.
  intros Hbody. induction xs as [|x xs IH]; intros s Hs; simpl; [exact Hs|].
  unfold bind. specialize (Hbody x s Hs).
  destruct (body x s) as [s' [[]|e]]; simpl in Hbody; [apply IH, Hbody | exact Hbody].
Qed.

(** A handler that does not raise makes the [try] total. *)
Lemma try_except_total (body : Py S unit) (handler : exn -> Py S unit) (s : S) :
  (forall e s', (handler e s').2 = Ok tt) ->
  (try_except body handler s).2 = Ok tt.
Proof.
  intros Hh. unfold try_except.
  destruct (body s) as [s' [[]|e]]; [reflexivity | apply Hh].
Qed.

End Computations.

(** ** Rounding *)

Section Rounding.

Lemma round_ties_even_nonneg (a b : Z) :
  0 <= a -> 0 < b -> 0 <= round_ties_even a b.
Proof.
  intros Ha Hb. unfold round_ties_even.
  pose proof (Z.div_pos a b Ha Hb).
  destruct (2 * (a mod b) ?= b); [destruct (Z.even (a / b))| |]; lia.
Qed.

(** The rounded quotient is within a half of the quotient. *)
Lemma round_ties_even_near (a b : Z) :
  0 < b -> - b <= 2 * (round_ties_even a b * b - a) <= b.
Proof.
  intros Hb. unfold round_ties_even.
  pose proof (Z.div_mod a b ltac:(lia)) as Hdiv.
  pose proof (Z.mod_pos_bound a b Hb) as Hmod.
  destruct (Z.compare_spec (2 * (a mod b)) b) as [Heq|Hlt|Hgt];
    [destruct (Z.even (a / b))| |]; nia.
Qed.

Lemma nearest_float_nonneg (n : Z) (d : positive) :
  0 < n -> (0 <= nearest_float n d)%Q.
Proof.
  intros Hn. unfold nearest_float. rewrite Qred_correct.
  destruct (Z.leb_spec 0 (ulp_exponent n d)) as [Hu|Hu].
  - pose proof (Z.pow_pos_nonneg 2 (ulp_exponent n d) ltac:(lia) Hu) as Hpow.
    pose proof (round_ties_even_nonneg n (Z.pos d * 2 ^ ulp_exponent n d)
                  ltac:(lia) ltac:(lia)).
    unfold Qle. simpl. nia.
  - pose proof (Z.pow_pos_nonneg 2 (- ulp_exponent n d) ltac:(lia) ltac:(lia)) as Hpow.
    pose proof (round_ties_even_nonneg (n * 2 ^ (- ulp_exponent n d)) (Z.pos d)
                  ltac:(nia) ltac:(lia)).
    unfold Qle. simpl. lia.
Qed.

(** Rounding keeps the sign. *)
Lemma binary64_nonneg (x : Q) : (0 <= x)%Q -> (0 <= binary64 x)%Q.
Proof.
  intros Hx. unfold binary64. destruct x as [[|n|n] d]; simpl.
  - apply Qle_refl.
  - apply nearest_float_nonneg. lia.
  - unfold Qle in Hx. simpl in Hx. lia.
Qed.

(** The test of [binade] finds the binade. *)
Lemma binade_reaches (n : Z) (d : positive) :
  0 < n -> reaches (binade n d) n d /\ ~ reaches (binade n d + 1) n d.
Proof.
  intros Hn.
  destruct (Z.log2_spec n Hn) as [Hn1 Hn2].
  destruct (Z.log2_spec (Z.pos d) ltac:(lia)) as [Hd1 Hd2].
  pose proof (Z.log2_nonneg n) as Ha. pose proof (Z.log2_nonneg (Z.pos d)) as Hb.
  set (a := Z.log2 n) in *. set (b := Z.log2 (Z.pos d)) in *.
  assert (Hlow : reaches (a - b - 1) n d).
  { unfold reaches. destruct (Z.leb_spec 0 (a - b - 1)).
    - assert (2 ^ a = 2 ^ (a - b - 1) * 2 ^ (b + 1)) as Hp
        by (rewrite <- Z.pow_add_r by lia; f_equal; lia).
      pose proof (Z.pow_pos_nonneg 2 (a - b - 1) ltac:(lia) ltac:(lia)).
      unfold Z.succ in *. nia.
    - assert (2 ^ (b + 1) = 2 ^ a * 2 ^ (- (a - b - 1))) as Hp
        by (rewrite <- Z.pow_add_r by lia; f_equal; lia).
      pose proof (Z.pow_pos_nonneg 2 (- (a - b - 1)) ltac:(lia) ltac:(lia)).
      unfold Z.succ in *. nia. }
  assert (Hhigh : ~ reaches (a - b + 1) n d).
  { unfold reaches. destruct (Z.leb_spec 0 (a - b + 1)).
    - assert (2 ^ (a + 1) = 2 ^ b * 2 ^ (a - b + 1)) as Hp
        by (rewrite <- Z.pow_add_r by lia; f_equal; lia).
      pose proof (Z.pow_pos_nonneg 2 (a - b + 1) ltac:(lia) ltac:(lia)).
      unfold Z.succ in *. nia.
    - assert (2 ^ b = 2 ^ (a + 1) * 2 ^ (- (a - b + 1))) as Hp
        by (rewrite <- Z.pow_add_r by lia; f_equal; lia).
      pose proof (Z.pow_pos_nonneg 2 (- (a - b + 1)) ltac:(lia) ltac:(lia)).
      unfold Z.succ in *. nia. }
  unfold binade. fold a b.
  assert (Htest : (if 0 <=? a - b then Z.pos d * 2 ^ (a - b) <=? n
                   else Z.pos d <=? n * 2 ^ (- (a - b))) = true <-> reaches (a - b) n d).
  { unfold reaches. destruct (0 <=? a - b); apply Z.leb_le. }
  destruct (if 0 <=? a - b then Z.pos d * 2 ^ (a - b) <=? n
            else Z.pos d <=? n * 2 ^ (- (a - b))) eqn:Ht.
  - split; [apply Htest; reflexivity | exact Hhigh].
  - split; [exact Hlow|]. replace (a - b - 1 + 1) with (a - b) by lia.
    intros Hr. apply Htest in Hr. discriminate.
Qed.

Lemma Qpow2_nonneg (e : Z) : 0 <= e -> (2 ^ e == inject_Z (2 ^ e))%Q.
Proof. intros He. symmetry. apply (Zpower_Qpower 2 e He). Qed.

Lemma Qpow2_neg (e : Z) : e < 0 -> (2 ^ e == 1 # Z.to_pos (2 ^ (- e)))%Q.
Proof.
  intros He. replace e with (- - e) at 1 by lia.
  rewrite Qpower_opp, (Qpow2_nonneg (- e)) by lia.
  pose proof (Z.pow_pos_nonneg 2 (- e) ltac:(lia) ltac:(lia)) as Hp.
  destruct (2 ^ (- e)) as [|p|p]; try lia. reflexivity.
Qed.

Lemma reaches_iff (e n : Z) (d : positive) :
  reaches e n d <-> (2 ^ e <= n # d)%Q.
Proof.
  unfold reaches. destruct (Z.leb_spec 0 e) as [He|He].
  - rewrite (Qpow2_nonneg e He). unfold Qle. simpl. split; intros; lia.
  - rewrite (Qpow2_neg e He).
    pose proof (Z.pow_pos_nonneg 2 (- e) ltac:(lia) ltac:(lia)) as Hp.
    unfold Qle. simpl. rewrite Z2Pos.id by exact Hp. split; intros; lia.
Qed.

(** The binade of a positive rational holds it. *)
Lemma binade_spec (n : Z) (d : positive) :
  0 < n -> (2 ^ binade n d <= n # d)%Q /\ (n # d < 2 ^ (binade n d + 1))%Q.
Proof.
  intros Hn. destruct (binade_reaches n d Hn) as [Hlow Hhigh].
  split; [apply reaches_iff, Hlow|].
  apply Qnot_le_lt. intros Hle. apply Hhigh, reaches_iff, Hle.
Qed.

(** The nearest float is within half the spacing of the floats around. *)
Lemma nearest_float_error (n : Z) (d : positive) :
  0 < n ->
  (Qabs (nearest_float n d - (n # d)) <= (1 # 2) * 2 ^ ulp_exponent n d)%Q.
Proof.
  intros Hn. unfold nearest_float. rewrite Qred_correct.
  apply Qabs_Qle_condition.
  destruct (Z.leb_spec 0 (ulp_exponent n d)) as [Hu|Hu].
  - rewrite (Qpow2_nonneg _ Hu).
    pose proof (Z.pow_pos_nonneg 2 (ulp_exponent n d) ltac:(lia) Hu) as Hp.
    pose proof (round_ties_even_near n (Z.pos d * 2 ^ ulp_exponent n d) ltac:(lia))
      as Hnear.
    set (m := round_ties_even n (Z.pos d * 2 ^ ulp_exponent n d)) in *.
    set (P := 2 ^ ulp_exponent n d) in *.
    unfold Qle, Qminus, Qplus, Qopp, Qmult, inject_Z. cbn [Qnum Qden].
    rewrite ?Pos2Z.inj_mul. split; nia.
  - rewrite (Qpow2_neg _ Hu).
    pose proof (Z.pow_pos_nonneg 2 (- ulp_exponent n d) ltac:(lia) ltac:(lia)) as Hp.
    pose proof (round_ties_even_near (n * 2 ^ (- ulp_exponent n d)) (Z.pos d)
                  ltac:(lia)) as Hnear.
    set (m := round_ties_even (n * 2 ^ (- ulp_exponent n d)) (Z.pos d)) in *.
    set (P := 2 ^ (- ulp_exponent n d)) in *.
    unfold Qle, Qminus, Qplus, Qopp, Qmult. cbn [Qnum Qden].
    rewrite ?Pos2Z.inj_mul, ?Z2Pos.id by exact Hp. split; nia.
Qed.

(** Rounding moves a number by at most half the spacing of the floats
    around it. *)
Lemma binary64_error (x : Q) :
  (Qabs (binary64 x - x) <= (1 # 2) * ulp x)%Q.
Proof.
  destruct x as [[|n|n] d]; unfold binary64, ulp; cbn [Qnum Qden].
  - unfold Qle. simpl. lia.
  - apply nearest_float_error. lia.
  - assert (Heq : (- nearest_float (Z.pos n) d - (Z.neg n # d)
                   == - (nearest_float (Z.pos n) d - (Z.pos n # d)))%Q).
    { change (Z.neg n # d) with (- (Z.pos n # d))%Q. ring. }
    rewrite Heq, Qabs_opp. apply nearest_float_error. lia.
Qed.

(** From [2 ^ -1022] on the spacing is at most [2 ^ -52] of the number. *)
Lemma ulp_of_normal (n : Z) (d : positive) :
  0 < n -> (2 ^ (-1022) <= n # d)%Q ->
  (2 ^ ulp_exponent n d <= (n # d) * 2 ^ (-52))%Q.
Proof.
  intros Hn Hnormal. destruct (binade_spec n d Hn) as [Hlow Hhigh].
  assert (He : -1022 <= binade n d).
  { assert (Hlt : (2 ^ (-1022) < 2 ^ (binade n d + 1))%Q)
      by (eapply Qle_lt_trans; eassumption).
    apply Qpower_lt_compat_l_inv in Hlt; [lia | reflexivity]. }
  unfold ulp_exponent. rewrite Z.max_l by exact He.
  replace (binade n d - 52) with (binade n d + (-52)) by lia.
  rewrite Qpower_plus by discriminate.
  apply Qmult_le_compat_r; [exact Hlow | discriminate].
Qed.

(** Within the normal range the rounding error is at most [2 ^ -53] of the
    number. *)
Lemma binary64_relative_error (x : Q) :
  (2 ^ (-1022) <= Qabs x)%Q ->
  (Qabs (binary64 x - x) <= Qabs x * 2 ^ (-53))%Q.
Proof.
  intros Hnormal. eapply Qle_trans; [apply binary64_error|].
  assert (Hulp : (ulp x <= Qabs x * 2 ^ (-52))%Q).
  { destruct x as [[|n|n] d]; unfold ulp; cbn [Qnum Qden].
    - unfold Qle. simpl. lia.
    - change (Qabs (Z.pos n # d)) with (Z.pos n # d) in *.
      apply ulp_of_normal; [lia | exact Hnormal].
    - change (Qabs (Z.neg n # d)) with (Z.pos n # d) in *.
      apply ulp_of_normal; [lia | exact Hnormal]. }
  assert (Hhalf : ((1 # 2) * (Qabs x * 2 ^ (-52)) == Qabs x * 2 ^ (-53))%Q).
  { replace (-53) with (-52 + -1) by lia. rewrite Qpower_plus by discriminate.
    change (2 ^ (-1))%Q with (1 # 2)%Q. ring. }
  rewrite <- Hhalf. apply Qmult_le_l; [reflexivity | exact Hulp].
Qed.

End Rounding.

(** ** The fetcher *)

Section Fetcher.
Context `{PyText}.

(** The function returns the list as the request left it, whether the
    request went through or raised. *)
Lemma get_featured_free_games_eq (reply : http_reply) :
  SteamAPI.get_featured_free_games reply
  = Ok (SteamAPI.featured_request reply []).1.
Proof.
  unfold SteamAPI.get_featured_free_games, run_local, bind, try_except, get_state, ret.
  destruct (SteamAPI.featured_request reply []) as [fg [[]|e]]; reflexivity.
Qed.

(** Building a record does not touch the state. *)
Lemma free_game_of_pure {S} (entry : pyval) (s : S) :
  SteamAPI.free_game_of entry s = (s, record_of entry).
Proof.
  unfold record_of, run_local, SteamAPI.free_game_of.
  destruct entry; try reflexivity.
  unfold py_get, bind, ret.
  destruct (py_truthy _); [|reflexivity].
  destruct (default (PyInt 0) _) as [| |z| | | |]; simpl; try reflexivity.
  destruct (100 * float_limit <=? Z.abs z); reflexivity.
Qed.

(** One iteration of the scan. *)
Lemma keep_if_free_eq (entry : pyval) (free_games : list free_game) :
  SteamAPI.keep_if_free entry free_games =
  match entry with
  | PyDict _ =>
      if fully_discounted entry then
        match record_of entry with
        | Ok g => (free_games ++ [g], Ok tt)
        | Raise e => (free_games, Raise e)
        end
      else (free_games, Ok tt)
  | _ => (free_games, Raise AttributeError)
  end.
Proof.
  unfold SteamAPI.keep_if_free, fully_discounted, field.
  destruct entry as [| | | | | |items]; try reflexivity.
  unfold bind at 1. simpl.
  destruct (dict_lookup "discount_percent" items) as [v|]; simpl.
  - destruct (py_eq_int v 100); [|reflexivity].
    unfold bind. rewrite free_game_of_pure.
    destruct (record_of (PyDict items)); reflexivity.
  - reflexivity.
Qed.

(** The record of an object whose price can be normalised. *)
Lemma record_of_dict (items : list (string * pyval)) :
  price_ok (dict_lookup "original_price" items) = true ->
  exists price,
    record_of (PyDict items) =
    Ok {| name := default PyNone (dict_lookup "name" items);
          image_url := default PyNone (dict_lookup "large_capsule_image" items);
          status := "Free to Keep!";
          store_url := SteamAPI.self_store_url +:+ "/app/"
                       +:+ py_str (default PyNone (dict_lookup "id" items));
          original_price := price;
          discount_end := default (PyInt 0) (dict_lookup "discount_expiration" items) |}.
Proof.
  intros Hp. unfold record_of, run_local, SteamAPI.free_game_of, py_get, bind, ret.
  destruct (dict_lookup "original_price" items) as [v|]; simpl.
  - simpl in Hp. destruct (py_truthy v) eqn:Ht; simpl in Hp.
    + destruct v as [|b|z|q|s|l|d]; try discriminate; simpl.
      * eexists; reflexivity.
      * apply Z.ltb_lt in Hp.
        destruct (Z.leb_spec (100 * float_limit) (Z.abs z)); [lia|].
        eexists; reflexivity.
      * eexists; reflexivity.
    + eexists; reflexivity.
  - eexists; reflexivity.
Qed.

(** The scan of well-formed entries keeps the fully discounted ones, in
    order, and ends without an exception. *)
Lemma scan_well_formed (entries : list pyval) (free_games : list free_game) :
  Forall (fun e => well_formed_entry e = true) entries ->
  exists kept,
    for_each entries SteamAPI.keep_if_free free_games = (free_games ++ kept, Ok tt)
    /\ Forall2 (fun e g => record_of e = Ok g)
               (filter (fun e => fully_discounted e = true) entries) kept.
Proof.
  intros Hwf. revert free_games.
  induction Hwf as [|e entries He _ IH]; intros free_games.
  - exists []. simpl. rewrite app_nil_r. split; [reflexivity | constructor].
  - simpl. unfold bind. rewrite keep_if_free_eq.
    destruct e as [| | | | | |items]; try discriminate.
    rewrite filter_cons.
    destruct (fully_discounted (PyDict items)) eqn:Hd.
    + simpl in He. unfold well_formed_entry in He. rewrite Hd in He. simpl in He.
      destruct (record_of_dict items He) as [price Hrec].
      remember (Build_free_game _ _ _ _ _ _) as g eqn:Hg in Hrec. clear Hg.
      rewrite Hrec.
      destruct (IH (free_games ++ [g])) as (kept & Hrun & Hkept).
      exists (g :: kept). rewrite Hrun, <- app_assoc. split; [reflexivity|].
      rewrite decide_True by reflexivity. constructor; [exact Hrec | exact Hkept].
    + destruct (IH free_games) as (kept & Hrun & Hkept).
      exists kept. split; [exact Hrun|].
      rewrite decide_False by discriminate. exact Hkept.
Qed.

(** Whatever the entries are, and whether the scan ends or raises, every
    record it appended was built from a fully discounted entry. *)
Lemma scan_keeps_only_free (entries : list pyval) (free_games : list free_game) :
  exists kept,
    (for_each entries SteamAPI.keep_if_free free_games).1 = free_games ++ kept
    /\ Forall (fun g => exists e, e ∈ entries /\ fully_discounted e = true
                                  /\ record_of e = Ok g) kept.
Proof.
  revert free_games. induction entries as [|e entries IH]; intros free_games.
  - exists []. simpl. rewrite app_nil_r. split; [reflexivity | constructor].
  - simpl. unfold bind. rewrite keep_if_free_eq.
    assert (Hskip : exists kept,
               (for_each entries SteamAPI.keep_if_free free_games).1
               = free_games ++ kept
               /\ Forall (fun g => exists e', e' ∈ e :: entries
                                    /\ fully_discounted e' = true
                                    /\ record_of e' = Ok g) kept).
    { destruct (IH free_games) as (kept & Hrun & Hkept). exists kept.
      split; [exact Hrun|]. eapply Forall_impl; [exact Hkept|].
      intros g (e' & He' & Hd & Hr). exists e'. split; [right; exact He' | auto]. }
    assert (Hstop : exists kept,
               free_games = free_games ++ kept
               /\ Forall (fun g => exists e', e' ∈ e :: entries
                                    /\ fully_discounted e' = true
                                    /\ record_of e' = Ok g) kept).
    { exists []. rewrite app_nil_r. split; [reflexivity | constructor]. }
    destruct e as [| | | | | |items]; try exact Hstop.
    destruct (fully_discounted (PyDict items)) eqn:Hd.
    + destruct (record_of (PyDict items)) as [g|x] eqn:Hrec; [|exact Hstop].
      destruct (IH (free_games ++ [g])) as (kept & Hrun & Hkept).
      destruct (for_each entries SteamAPI.keep_if_free (free_games ++ [g]))
        as [out r] eqn:Hout.
      simpl in Hrun. exists (g :: kept).
      split.
      * destruct r as [[]|x]; simpl; rewrite Hrun, <- app_assoc; reflexivity.
      * constructor.
        -- exists (PyDict items). split; [left | auto].
        -- eapply Forall_impl; [exact Hkept|].
           intros g' (e' & He' & Hd' & Hr'). exists e'.
           split; [right; exact He' | auto].
    + destruct (for_each entries SteamAPI.keep_if_free free_games)
        as [out r] eqn:Hout.
      destruct Hskip as (kept & Hrun & Hkept). simpl in Hrun.
      exists kept. split; [|exact Hkept].
      destruct r as [[]|x]; exact Hrun.
Qed.

(** The request on a reply that carries a "specials" collection comes down
    to the scan of its entries. *)
Lemma featured_request_scan (data section : list (string * pyval))
    (entries : list pyval) (free_games : list free_game) :
  dict_lookup "specials" data = Some (PyDict section) ->
  dict_lookup "items" section = Some (PyList entries) ->
  SteamAPI.featured_request (Response 200 (Some (PyDict data))) free_games
  = for_each entries SteamAPI.keep_if_free free_games.
Proof.
  intros Hs Hi. unfold SteamAPI.featured_request. simpl.
  unfold bind, lift, py_get at 1. rewrite Hs. simpl. rewrite Hi. simpl.
  reflexivity.
Qed.

End Fetcher.

Section FetcherClaims.
Context `{PyText}.

(** C3 (filter correctness).  When the reply carries a "specials" collection
    of well-formed entries, the fetcher returns one record per entry whose
    discount percentage is exactly 100, in the order of the collection, and
    none for any other entry: an entry at 99, at any other value or without
    the field gives no record. *)
Theorem filter_correctness (data section : list (string * pyval))
    (entries : list pyval) :
  dict_lookup "specials" data = Some (PyDict section) ->
  dict_lookup "items" section = Some (PyList entries) ->
  Forall (fun e => well_formed_entry e = true) entries ->
  exists free_games,
    SteamAPI.get_featured_free_games (Response 200 (Some (PyDict data)))
    = Ok free_games
    /\ Forall2 (fun e g => record_of e = Ok g)
               (filter (fun e => fully_discounted e = true) entries) free_games.
Proof.
  intros Hs Hi Hwf.
  rewrite get_featured_free_games_eq, (featured_request_scan _ _ _ _ Hs Hi).
  destruct (scan_well_formed entries [] Hwf) as (kept & Hrun & Hkept).
  rewrite Hrun. exists kept. split; [reflexivity | exact Hkept].
Qed.

(** What "exactly 100" comes to on the values an entry can carry. *)
Lemma fully_discounted_iff (items : list (string * pyval)) :
  fully_discounted (PyDict items) = true <->
  exists v, dict_lookup "discount_percent" items = Some v
            /\ match v with
               | PyInt z => z = 100
               | PyFloat q => (q == 100)%Q
               | _ => False
               end.
Proof.
  unfold fully_discounted, field.
  destruct (dict_lookup "discount_percent" items) as [v|].
  - split.
    + intros Hv. exists v. split; [reflexivity|].
      destruct v as [|[]|z|q| | |]; simpl in Hv; try discriminate.
      * apply Z.eqb_eq, Hv.
      * apply Qeq_bool_iff in Hv. exact Hv.
    + intros (v' & [= <-] & Hv).
      destruct v as [| |z|q| | |]; simpl; try contradiction.
      * apply Z.eqb_eq, Hv.
      * apply Qeq_bool_iff. exact Hv.
  - split; [discriminate | intros (v & [=] & _)].
Qed.

(** C5 (price normalisation), as the code has it.  A kept entry whose raw
    price is absent, falsy or a number within the range of the floats gets a
    record; the price of the record of a kept entry is 0 when the raw price
    is absent or falsy, and otherwise the raw price divided by 100 as
    Python's division gives it: the float nearest to the quotient, within
    half the spacing of the floats around it, which is non-negative when the
    raw price is. *)
Theorem price_normalization (items : list (string * pyval)) :
  (price_ok (dict_lookup "original_price" items) = true ->
   exists g, record_of (PyDict items) = Ok g)
  /\ (forall g,
        record_of (PyDict items) = Ok g ->
        match dict_lookup "original_price" items with
        | None => original_price g = PyInt 0
        | Some raw =>
            if py_truthy raw
            then exists r,
                   number_value raw = Some r
                   /\ original_price g = PyFloat (binary64 (r / 100))
                   /\ (Qabs (binary64 (r / 100) - r / 100)
                       <= (1 # 2) * ulp (r / 100))%Q
                   /\ ((0 <= r)%Q -> (0 <= binary64 (r / 100))%Q)
            else original_price g = PyInt 0
        end).
Proof.
  split.
  - intros Hok. destruct (record_of_dict items Hok) as [price Hrec]. eauto.
  - intros g.
    assert (Hsign : forall r, (0 <= r)%Q -> (0 <= binary64 (r / 100))%Q).
    { intros r Hr. apply binary64_nonneg.
      unfold Qdiv. apply Qmult_le_0_compat; [exact Hr | discriminate]. }
    unfold record_of, run_local, SteamAPI.free_game_of, py_get, bind, ret.
    destruct (dict_lookup "original_price" items) as [raw|]; simpl.
    + destruct (py_truthy raw) eqn:Ht; simpl.
      * destruct raw as [|b|z|q| | |]; simpl; try discriminate.
        -- intros [= <-]. simpl. eexists. split; [reflexivity|]. split; [reflexivity|].
           split; [apply binary64_error | apply Hsign].
        -- destruct (100 * float_limit <=? Z.abs z); simpl; [discriminate|].
           intros [= <-]. simpl. eexists. split; [reflexivity|]. split; [reflexivity|].
           split; [apply binary64_error | apply Hsign].
        -- intros [= <-]. simpl. eexists. split; [reflexivity|]. split; [reflexivity|].
           split; [apply binary64_error | apply Hsign].
      * intros [= <-]. reflexivity.
    + intros [= <-]. reflexivity.
Qed.

(** The image, the expiry and the price of the record of an entry that has
    none of the three fields. *)
Lemma record_of_missing_fields (items : list (string * pyval)) (g : free_game) :
  record_of (PyDict items) = Ok g ->
  (dict_lookup "large_capsule_image" items = None -> image_url g = PyNone)
  /\ (dict_lookup "discount_expiration" items = None -> discount_end g = PyInt 0)
  /\ (dict_lookup "original_price" items = None -> original_price g = PyInt 0).
Proof.
  intros Hrec.
  destruct (price_ok (dict_lookup "original_price" items)) eqn:Hp.
  - destruct (record_of_dict items Hp) as [price Hrec']. rewrite Hrec in Hrec'.
    injection Hrec' as ->. simpl. repeat split.
    + intros ->. reflexivity.
    + intros ->. reflexivity.
    + intros Hnone. revert Hrec.
      unfold record_of, run_local, SteamAPI.free_game_of, py_get, bind, ret.
      rewrite Hnone. simpl. intros [= <-]. reflexivity.
  - exfalso. revert Hrec Hp.
    unfold record_of, run_local, SteamAPI.free_game_of, py_get, bind, ret, price_ok.
    destruct (dict_lookup "original_price" items) as [v|]; simpl; [|discriminate].
    destruct (py_truthy v); simpl; [|discriminate].
    destruct v as [| |z| | | |]; simpl; try discriminate.
    destruct (Z.leb_spec (100 * float_limit) (Z.abs z)); simpl; [discriminate|].
    intros _ Hlt. apply Z.ltb_ge in Hlt. lia.
Qed.

(** The price of a record is 0 or a float. *)
Lemma record_of_price (entry : pyval) (g : free_game) :
  record_of entry = Ok g ->
  original_price g = PyInt 0 \/ exists q, original_price g = PyFloat q.
Proof.
  unfold record_of, run_local, SteamAPI.free_game_of.
  destruct entry as [| | | | | |items]; try discriminate.
  unfold py_get, bind, ret. simpl.
  destruct (py_truthy _); simpl.
  - destruct (default (PyInt 0) _) as [| |z| | | |]; simpl; try discriminate.
    + intros [= <-]. right. eexists; reflexivity.
    + destruct (100 * float_limit <=? Z.abs z); simpl; [discriminate|].
      intros [= <-]. right. eexists; reflexivity.
    + intros [= <-]. right. eexists; reflexivity.
  - intros [= <-]. left. reflexivity.
Qed.

End FetcherClaims.

(** ** Removing duplicates *)

Section Duplicates.
Context `{PyText}.

(** One iteration of the loop that removes duplicates. *)
Lemma keep_if_unseen_eq (game : free_game) (seen : gset hkey)
    (unique_games : list free_game) :
  SteamAPI.keep_if_unseen game (seen, unique_games) =
  match hash_key (name game) with
  | None => ((seen, unique_games), Raise TypeError)
  | Some k =>
      if decide (k ∈ seen) then ((seen, unique_games), Ok tt)
      else (({[k]} ∪ seen, unique_games ++ [game]), Ok tt)
  end.
Proof.
  unfold SteamAPI.keep_if_unseen, py_hash, bind.
  destruct (hash_key (name game)) as [k|]; [|reflexivity]. simpl.
  destruct (decide (k ∈ seen)); reflexivity.
Qed.

(** The loop over hashable names: what it keeps, from any set [seen] of
    names met before, the names in [earlier]. *)
Lemma unique_loop (games : list free_game) :
  Forall hashable_name games ->
  forall (earlier : list hkey) (unique_games : list free_game),
  exists seen' kept,
    for_each games SteamAPI.keep_if_unseen (list_to_set earlier, unique_games)
    = ((seen', unique_games ++ kept), Ok tt)
    /\ sublist kept games
    /\ NoDup (name_key <$> kept)
    /\ (forall g, g ∈ kept -> name_key g ∉ earlier)
    /\ (forall g, g ∈ games -> name_key g ∈ earlier \/ name_key g ∈ name_key <$> kept)
    /\ (forall g, g ∈ kept ->
          exists before after,
            games = before ++ g :: after /\ name_key g ∉ name_key <$> before)
    /\ (length kept + repeats earlier games = length games)%nat.
Proof.
  induction 1 as [|game games [k Hk] _ IH]; intros earlier unique_games.
  - exists (list_to_set earlier), []. rewrite app_nil_r. simpl.
    repeat split; try (constructor; fail); intros g Hg; inversion Hg.
  - assert (Hkey : name_key game = k) by (unfold name_key; rewrite Hk; reflexivity).
    simpl. unfold bind. rewrite keep_if_unseen_eq, Hk. rewrite Hkey.
    destruct (decide (k ∈ (list_to_set earlier : gset hkey))) as [Hin|Hnin].
    + destruct (IH earlier unique_games)
        as (seen' & kept & Hrun & Hsub & Hnd & Hfresh & Hcov & Hfirst & Hlen).
      exists seen', kept. rewrite Hrun.
      assert (Hin' : k ∈ earlier) by (apply elem_of_list_to_set in Hin; exact Hin).
      repeat split; try assumption.
      * apply sublist_cons, Hsub.
      * intros g Hg. apply elem_of_cons in Hg as [->|Hg]; [left; congruence | apply Hcov, Hg].
      * intros g Hg. destruct (Hfirst g Hg) as (before & after & -> & Hb).
        exists (game :: before), after. split; [reflexivity|].
        rewrite fmap_cons, not_elem_of_cons. split; [|exact Hb].
        rewrite Hkey. intros Heq. apply (Hfresh g Hg). congruence.
      * rewrite bool_decide_true by exact Hin'. simpl.
        assert (Hrep : forall l e1 e2, (forall x, x ∈ e1 <-> x ∈ e2) ->
                                       repeats e1 l = repeats e2 l).
        { clear. induction l as [|g l IHl]; intros e1 e2 He; simpl; [reflexivity|].
          rewrite (IHl (name_key g :: e1) (name_key g :: e2)).
          - rewrite (bool_decide_ext _ _ (He (name_key g))). reflexivity.
          - intros x. rewrite !elem_of_cons, He. reflexivity. }
        rewrite (Hrep games (k :: earlier) earlier).
        -- lia.
        -- intros x. rewrite elem_of_cons. split; [intros [->|]; assumption | tauto].
    + replace ({[k]} ∪ list_to_set earlier : gset hkey)
        with (list_to_set (k :: earlier) : gset hkey) by reflexivity.
      destruct (IH (k :: earlier) (unique_games ++ [game]))
        as (seen' & kept & Hrun & Hsub & Hnd & Hfresh & Hcov & Hfirst & Hlen).
      exists seen', (game :: kept). rewrite Hrun, <- app_assoc.
      assert (Hnin' : k ∉ earlier)
        by (intros Hin; apply Hnin, elem_of_list_to_set, Hin).
      repeat split.
      * apply sublist_skip, Hsub.
      * rewrite fmap_cons, Hkey. apply NoDup_cons. split; [|exact Hnd].
        intros Hin. apply list_elem_of_fmap in Hin as (g & Hg1 & Hg2).
        apply (Hfresh g Hg2). rewrite <- Hg1. left.
      * intros g Hg. apply elem_of_cons in Hg as [->|Hg].
        -- rewrite Hkey. exact Hnin'.
        -- intros Hin. apply (Hfresh g Hg). right. exact Hin.
      * intros g Hg. rewrite fmap_cons, Hkey.
        apply elem_of_cons in Hg as [->|Hg].
        -- right. rewrite Hkey. left.
        -- destruct (Hcov g Hg) as [Hin|Hin].
           ++ apply elem_of_cons in Hin as [->|Hin]; [right; left | left; exact Hin].
           ++ right. right. exact Hin.
      * intros g Hg. apply elem_of_cons in Hg as [->|Hg].
        -- exists [], games. split; [reflexivity | apply not_elem_of_nil].
        -- destruct (Hfirst g Hg) as (before & after & -> & Hb).
           exists (game :: before), after. split; [reflexivity|].
           rewrite fmap_cons, not_elem_of_cons. split; [|exact Hb].
           rewrite Hkey. intros Heq. apply (Hfresh g Hg). rewrite Heq. left.
      * rewrite bool_decide_false by exact Hnin'. simpl. simpl in Hlen. lia.
Qed.

(** A name that cannot be hashed stops the loop with [TypeError]. *)
Lemma unique_loop_unhashable (games : list free_game) :
  Exists (fun g => hash_key (name g) = None) games ->
  forall st, (for_each games SteamAPI.keep_if_unseen st).2 = Raise TypeError.
Proof.
  induction games as [|game games IH]; intros Hex [seen unique_games].
  - inversion Hex.
  - simpl. unfold bind. rewrite keep_if_unseen_eq.
    destruct (hash_key (name game)) as [k|] eqn:Hk.
    + apply Exists_cons in Hex as [Hex|Hex]; [congruence|].
      destruct (decide (k ∈ seen)); apply IH, Hex.
    + reflexivity.
Qed.

(** What [get_all_free_games] returns, from what the featured request gave. *)
Lemma get_all_free_games_eq (reply : http_reply) (merged : list free_game) :
  SteamAPI.get_featured_free_games reply = Ok merged ->
  SteamAPI.get_all_free_games reply =
  match SteamAPI.unique_by_name merged with
  | Ok unique_games => Ok (Some unique_games)
  | Raise e => Raise e
  end.
Proof.
  intros Hf. unfold SteamAPI.get_all_free_games, run_local, bind, lift.
  rewrite Hf. destruct merged as [|g merged]; simpl.
  - reflexivity.
  - destruct (SteamAPI.unique_by_name (g :: merged)); reflexivity.
Qed.

(** The loop on its own: it ends on hashable names and raises [TypeError]
    on the first name that is a list or a dictionary. *)
Lemma unique_by_name_outcome (merged : list free_game) :
  (exists unique_games, SteamAPI.unique_by_name merged = Ok unique_games)
  \/ (SteamAPI.unique_by_name merged = Raise TypeError
      /\ Exists (fun g => hash_key (name g) = None) merged).
Proof.
  assert (dec : forall g, {hashable_name g} + {hash_key (name g) = None}).
  { intros g. unfold hashable_name. destruct (hash_key (name g)); [left; eauto | right; reflexivity]. }
  destruct (Forall_Exists_dec _ _ dec merged) as [Hall|Hex].
  - left. destruct (unique_loop merged Hall [] []) as (seen' & kept & Hrun & _).
    exists kept. unfold SteamAPI.unique_by_name, run_local, bind.
    change (∅ : gset hkey) with (list_to_set [] : gset hkey). rewrite Hrun.
    reflexivity.
  - right.
    split; [|exact Hex].
    pose proof (unique_loop_unhashable merged Hex (∅, [])) as Hraise.
    unfold SteamAPI.unique_by_name, run_local, bind.
    destruct (for_each merged SteamAPI.keep_if_unseen (∅, [])) as [st [[]|e]];
      simpl in *; [discriminate | injection Hraise as ->; reflexivity].
Qed.

(** C4 (dedup correctness).  When the names of the merged records are
    hashable, the fetcher returns a subsequence of the merged list that has
    one record for each name of the list and no name twice, each record being
    the first of the list with its name; it is shorter than the merged list by
    the number of occurrences of a name met before. *)
Theorem dedup_correctness (reply : http_reply) (merged : list free_game) :
  SteamAPI.get_featured_free_games reply = Ok merged ->
  Forall hashable_name merged ->
  exists unique_games,
    SteamAPI.get_all_free_games reply = Ok (Some unique_games)
    /\ sublist unique_games merged
    /\ NoDup (name_key <$> unique_games)
    /\ (forall g, g ∈ merged -> name_key g ∈ name_key <$> unique_games)
    /\ (forall g, g ∈ unique_games ->
          exists before after,
            merged = before ++ g :: after /\ name_key g ∉ name_key <$> before)
    /\ length unique_games
       = (length merged - duplicates_beyond_first merged)%nat.
Proof.
  intros Hf Hall.
  destruct (unique_loop merged Hall [] [])
    as (seen' & kept & Hrun & Hsub & Hnd & _ & Hcov & Hfirst & Hlen).
  exists kept. rewrite (get_all_free_games_eq _ _ Hf).
  unfold SteamAPI.unique_by_name, run_local, bind.
  change (∅ : gset hkey) with (list_to_set [] : gset hkey). rewrite Hrun. simpl.
  repeat split; try assumption.
  - intros g Hg. destruct (Hcov g Hg) as [Hin|Hin]; [inversion Hin | exact Hin].
  - unfold duplicates_beyond_first. lia.
Qed.

End Duplicates.

(** ** The cycle *)

Section CycleLemmas.
Context `{PyText} {chat Channel : Type}.
Variable channel_send : Channel -> string -> Embed -> Py chat unit.

(** Building the embed does not touch the state. *)
Lemma offer_embed_pure {S} (game : free_game) (s : S) :
  offer_embed game s = (s, run_local (offer_embed game) tt).
Proof.
  unfold run_local, offer_embed, bind, ret, lift.
  destruct (original_price game) as [|b|z|q|str|l|d]; simpl; try reflexivity;
    try (destruct (py_truthy (discount_end game)); [|reflexivity];
         destruct (utc_minute (discount_end game)); reflexivity).
  destruct (float_limit <=? Z.abs z); simpl; [reflexivity|].
  destruct (py_truthy (discount_end game)); [|reflexivity].
  destruct (utc_minute (discount_end game)); reflexivity.
Qed.

(** One guarded iteration: it never raises, leaves the snapshot alone and
    writes one record about the game, sent or failed. *)
Lemma notify_guarded_spec (channel : Channel) (role : Role) (game : free_game)
    (b : bot chat) :
  exists b' r,
    notify_guarded channel_send channel role game b = (b', Ok tt)
    /\ previous_games b' = previous_games b
    /\ log b' = log b ++ [r]
    /\ (r = Notified (name game) \/ exists e, r = ErrorSending (name game) e).
Proof.
  unfold notify_guarded, try_except, notify, bind.
  rewrite offer_embed_pure.
  destruct (run_local (offer_embed game) tt) as [embed|e].
  - unfold on_discord.
    destruct (channel_send channel (greeting role) embed (discord b)) as [c [[]|e]].
    + do 2 eexists. split; [reflexivity|]. simpl. eauto.
    + do 2 eexists. split; [reflexivity|]. simpl. eauto.
  - do 2 eexists. split; [reflexivity|]. simpl. eauto.
Qed.

Lemma reported_app (l1 l2 : list log_record) :
  reported (l1 ++ l2) = reported l1 ++ reported l2.
Proof. unfold reported. apply omap_app. Qed.

(** The notification loop: it never raises, leaves the snapshot alone and
    reports on every game of the list, in order. *)
Lemma notify_loop_spec (channel : Channel) (role : Role)
    (games : list free_game) (b : bot chat) :
  exists b',
    for_each games (notify_guarded channel_send channel role) b = (b', Ok tt)
    /\ previous_games b' = previous_games b
    /\ reported (log b') = reported (log b) ++ (name <$> games).
Proof.
  revert b. induction games as [|game games IH]; intros b.
  - exists b. simpl. rewrite app_nil_r. auto.
  - destruct (notify_guarded_spec channel role game b)
      as (b1 & r & Hrun & Hprev & Hlog & Hr).
    destruct (IH b1) as (b' & Hrun' & Hprev' & Hlog').
    exists b'. simpl. unfold bind. rewrite Hrun, Hrun'.
    split; [reflexivity|]. split; [congruence|].
    rewrite Hlog', Hlog, reported_app, <- app_assoc. f_equal.
    destruct Hr as [->|[e ->]]; reflexivity.
Qed.

(** The cycle, path by path. *)
Lemma check_free_games_eq (reply : http_reply) (channel : option Channel)
    (role : option Role) (b : bot chat) :
  check_free_games channel_send reply channel role b =
  match SteamAPI.get_all_free_games reply with
  | Raise e => (logged b [Checking], Raise e)
  | Ok None => (logged b [Checking; FailedToFetch], Ok FetchFailed)
  | Ok (Some games) =>
      match channel, role with
      | None, _ => (logged b [Checking; ChannelNotFound], Ok NoChannel)
      | Some _, None => (logged b [Checking; RoleNotFound], Ok NoRole)
      | Some channel, Some role =>
          let added := new_games (previous_games b) games in
          let b1 := logged b [Checking; CurrentFreeGames (current_games games);
                              NewGamesDetected (name <$> added)] in
          let b2 := (for_each added (notify_guarded channel_send channel role) b1).1 in
          ({| previous_games := ∅ ∪ current_games games;
              discord := discord b2;
              log := log b2 |}, Ok Completed)
      end
  end.
Proof.
  unfold check_free_games, bind, logger, modify, lift, logged. simpl.
  destruct (SteamAPI.get_all_free_games reply) as [[games|]|e]; simpl.
  - destruct channel as [channel|]; simpl.
    + destruct role as [role|]; simpl.
      * rewrite <- !app_assoc. simpl.
        match goal with
        | |- context [for_each ?l ?f ?s] =>
            destruct (notify_loop_spec channel role l s) as (b' & Hrun & _)
        end.
        rewrite Hrun. reflexivity.
      * rewrite <- app_assoc. reflexivity.
    + rewrite <- app_assoc. reflexivity.
  - rewrite <- app_assoc. reflexivity.
  - reflexivity.
Qed.

End CycleLemmas.

Section CycleClaims.
Context `{PyText} {chat Channel : Type}.
Variable channel_send : Channel -> string -> Embed -> Py chat unit.

Lemma filter_all {A} (P : A -> Prop) `{forall x, Decision (P x)} (l : list A) :
  Forall P l -> filter P l = l.
Proof.
  induction 1 as [|x l Hx _ IH]; [reflexivity|].
  rewrite filter_cons, decide_True by exact Hx. f_equal. exact IH.
Qed.

Lemma filter_none {A} (P : A -> Prop) `{forall x, Decision (P x)} (l : list A) :
  Forall (fun x => ~ P x) l -> filter P l = [].
Proof.
  induction 1 as [|x l Hx _ IH]; [reflexivity|].
  rewrite filter_cons, decide_False by exact Hx. exact IH.
Qed.

(** C1 (delta correctness).  The added list is the subsequence of the fetched
    list, in its order, of the records whose key [name - status] is not in
    the previous snapshot; it is the whole fetched list when the snapshot is
    empty; and a cycle that finds its channel and role reports on exactly
    these records, in that order. *)
Theorem delta_correctness (previous : gset string) (latest : list free_game) :
  new_games previous latest
  = filter (fun g => py_str (name g) +:+ " - " +:+ status g ∉ previous) latest
  /\ sublist (new_games previous latest) latest
  /\ (forall g, g ∈ new_games previous latest
                <-> g ∈ latest /\ identity_key g ∉ previous)
  /\ new_games ∅ latest = latest
  /\ (forall reply channel role (b : bot chat),
        SteamAPI.get_all_free_games reply = Ok (Some latest) ->
        previous_games b = previous ->
        exists b',
          check_free_games channel_send reply (Some channel) (Some role) b
          = (b', Ok Completed)
          /\ reported (log b')
             = reported (log b) ++ (name <$> new_games previous latest)).
Proof.
  split; [reflexivity|]. split; [apply sublist_filter|].
  split; [intros g; unfold new_games; rewrite list_elem_of_filter; tauto|].
  split.
  - unfold new_games. apply filter_all, Forall_forall. intros g _.
    apply not_elem_of_empty.
  - intros reply channel role b Hfetch Hprev.
    rewrite check_free_games_eq, Hfetch. simpl.
    match goal with
    | |- context [for_each ?l ?f ?s] =>
        destruct (notify_loop_spec channel_send channel role l s)
          as (b' & Hrun & _ & Hlog)
    end.
    rewrite Hrun. simpl. eexists. split; [reflexivity|]. simpl.
    rewrite Hlog, Hprev. simpl. rewrite reported_app. simpl.
    rewrite app_nil_r. reflexivity.
Qed.

(** C2 (snapshot replacement).  After a cycle that ran to its end the stored
    snapshot is the set of the keys of the records this cycle fetched,
    whatever it was before; it is empty when the cycle fetched nothing. *)
Theorem snapshot_replacement (reply : http_reply) (channel : option Channel)
    (role : option Role) (b b' : bot chat) :
  check_free_games channel_send reply channel role b = (b', Ok Completed) ->
  exists games,
    SteamAPI.get_all_free_games reply = Ok (Some games)
    /\ previous_games b' = current_games games
    /\ (forall k, k ∈ previous_games b' <-> exists g, g ∈ games /\ identity_key g = k)
    /\ (games = [] -> previous_games b' = ∅).
Proof.
  rewrite check_free_games_eq.
  destruct (SteamAPI.get_all_free_games reply) as [[games|]|e]; try discriminate.
  destruct channel as [channel|]; [|discriminate].
  destruct role as [role|]; [|discriminate].
  simpl. intros [= <-]. exists games. simpl.
  rewrite (left_id_L ∅ (∪)). split; [reflexivity|]. split; [reflexivity|]. split.
  - intros k. unfold current_games. rewrite elem_of_list_to_set, list_elem_of_fmap.
    split; intros (g & H1 & H2); exists g; auto.
  - intros ->. reflexivity.
Qed.

(** A cycle that fetches a list and finds its channel and role runs to its
    end. *)
Lemma cycle_completes (reply : http_reply) (channel : Channel) (role : Role)
    (games : list free_game) (b : bot chat) :
  SteamAPI.get_all_free_games reply = Ok (Some games) ->
  exists b',
    check_free_games channel_send reply (Some channel) (Some role) b
    = (b', Ok Completed).
Proof.
  intros Hfetch. rewrite check_free_games_eq, Hfetch. simpl. eexists. reflexivity.
Qed.

(** A cycle that stops early leaves the snapshot as it was. *)
Lemma aborted_cycle_keeps_snapshot (reply : http_reply) (channel : option Channel)
    (role : option Role) (b b' : bot chat) (r : result cycle_exit) :
  check_free_games channel_send reply channel role b = (b', r) ->
  r <> Ok Completed ->
  previous_games b' = previous_games b.
Proof.
  rewrite check_free_games_eq.
  destruct (SteamAPI.get_all_free_games reply) as [[games|]|e];
    [destruct channel; [destruct role|]| |];
    simpl; intros [= <- <-] Hr; try reflexivity.
  contradiction Hr. reflexivity.
Qed.

(** C7 (no-op cycle).  With the snapshot a fetch leaves, the same fetch adds
    nothing; and of two cycles in a row that fetch the same and run to their
    end, the second sends nothing, reports on no game and keeps the
    snapshot. *)
Theorem noop_cycle_idempotence (latest : list free_game) :
  new_games (current_games latest) latest = []
  /\ (forall reply channel role channel' role' (b b1 b2 : bot chat),
        SteamAPI.get_all_free_games reply = Ok (Some latest) ->
        check_free_games channel_send reply channel role b = (b1, Ok Completed) ->
        check_free_games channel_send reply channel' role' b1 = (b2, Ok Completed) ->
        discord b2 = discord b1
        /\ previous_games b2 = previous_games b1
        /\ log b2 = log b1 ++ [Checking; CurrentFreeGames (previous_games b1);
                               NewGamesDetected []]).
Proof.
  assert (Hnone : forall s : gset string,
             current_games latest ⊆ s -> new_games s latest = []).
  { intros s Hs. unfold new_games. apply filter_none, Forall_forall.
    intros g Hg Hnot. apply Hnot, Hs. unfold current_games.
    apply elem_of_list_to_set, list_elem_of_fmap. exists g. auto. }
  split.
  - apply Hnone. reflexivity.
  - intros reply channel role channel' role' b b1 b2 Hfetch Hc1 Hc2.
    rewrite check_free_games_eq, Hfetch in Hc1, Hc2.
    destruct channel as [channel|]; [|discriminate].
    destruct role as [role|]; [|discriminate].
    destruct channel' as [channel'|]; [|discriminate].
    destruct role' as [role'|]; [|discriminate].
    simpl in Hc1. injection Hc1 as <-. simpl in Hc2.
    rewrite (Hnone (∅ ∪ current_games latest)) in Hc2 by apply union_subseteq_r.
    simpl in Hc2. injection Hc2 as <-. simpl.
    rewrite (left_id_L ∅ (∪)). auto.
Qed.

End CycleClaims.

Section NotificationClaims.
Context `{PyText} {chat Channel : Type}.
Variable channel_send : Channel -> string -> Embed -> Py chat unit.

Lemma float_limit_positive : 0 < float_limit.
Proof. vm_compute. reflexivity. Qed.

(** The embed of a record whose expiry is 0: nothing raises, and there is no
    "Offer Ends" field. *)
Lemma offer_embed_without_expiry (entry : pyval) (g : free_game) :
  record_of entry = Ok g ->
  discount_end g = PyInt 0 ->
  exists price_text, forall S (s : S),
    offer_embed g s =
    (s, Ok {| title := name g;
              description := status g +:+ newline +:+ "Original Price: $" +:+ price_text;
              url := store_url g;
              thumbnail := Some (image_url g);
              fields := [("Store Page", "[Click here](" +:+ store_url g +:+ ")")] |}).
Proof.
  intros Hrec Hend. unfold offer_embed, bind, ret. rewrite Hend. simpl.
  destruct (record_of_price entry g Hrec) as [->|[q ->]]; simpl.
  - pose proof float_limit_positive.
    destruct (Z.leb_spec float_limit 0); [lia|]. eexists. reflexivity.
  - eexists. reflexivity.
Qed.

(** C8 (missing-field defaults), as the code has it.  The record of an entry
    without an image carries [None] as its image; the record of an entry
    without a discount end carries 0 as its expiry, and its embed is built
    without an exception and has no "Offer Ends" field; the record of an
    entry without a price carries 0; and the notification of a record never
    raises past its [try]. *)
Theorem missing_field_defaults (items : list (string * pyval)) (g : free_game) :
  record_of (PyDict items) = Ok g ->
  (dict_lookup "large_capsule_image" items = None -> image_url g = PyNone)
  /\ (dict_lookup "discount_expiration" items = None ->
      discount_end g = PyInt 0
      /\ exists price_text, forall S (s : S),
           offer_embed g s =
           (s, Ok {| title := name g;
                     description :=
                       status g +:+ newline +:+ "Original Price: $" +:+ price_text;
                     url := store_url g;
                     thumbnail := Some (image_url g);
                     fields :=
                       [("Store Page", "[Click here](" +:+ store_url g +:+ ")")] |}))
  /\ (dict_lookup "original_price" items = None -> original_price g = PyInt 0)
  /\ (forall channel role (b : bot chat),
        (notify_guarded channel_send channel role g b).2 = Ok tt).
Proof.
  intros Hrec.
  destruct (record_of_missing_fields items g Hrec) as (Himg & Hend & Hprice).
  split; [exact Himg|]. split; [|split; [exact Hprice|]].
  - intros Habsent. split; [apply Hend, Habsent|].
    apply (offer_embed_without_expiry (PyDict items)); [exact Hrec | apply Hend, Habsent].
  - intros channel role b.
    destruct (notify_guarded_spec channel_send channel role g b) as (b' & r & Hrun & _).
    rewrite Hrun. reflexivity.
Qed.

(** C9 (send isolation).  When the notification of a record of the added
    list raises, the exception is caught and written to the log, the loop
    goes on with the records after it from the state the failure left, and
    the loop ends having reported on every record of the list, in order. *)
Theorem send_isolation (channel : Channel) (role : Role)
    (before : list free_game) (B : free_game) (after : list free_game)
    (b bB : bot chat) (e : exn) :
  notify channel_send channel role B
    (for_each before (notify_guarded channel_send channel role) b).1
  = (bB, Raise e) ->
  exists b',
    for_each (before ++ B :: after) (notify_guarded channel_send channel role) b
    = (b', Ok tt)
    /\ for_each after (notify_guarded channel_send channel role)
         (logged bB [ErrorSending (name B) e])
       = (b', Ok tt)
    /\ reported (log b') = reported (log b) ++ (name <$> before ++ B :: after).
Proof.
  intros Hfail.
  destruct (notify_loop_spec channel_send channel role before b) as (b1 & Hrun1 & _).
  rewrite Hrun1 in Hfail. simpl in Hfail.
  destruct (notify_loop_spec channel_send channel role after
              (logged bB [ErrorSending (name B) e])) as (b' & Hrun2 & _).
  exists b'.
  assert (Hall : for_each (before ++ B :: after)
                   (notify_guarded channel_send channel role) b = (b', Ok tt)).
  { rewrite for_each_app. unfold bind at 1. rewrite Hrun1. simpl.
    unfold bind, notify_guarded at 1, try_except. rewrite Hfail.
    unfold logger, modify. exact Hrun2. }
  split; [exact Hall|]. split; [exact Hrun2|].
  destruct (notify_loop_spec channel_send channel role (before ++ B :: after) b)
    as (b'' & Hrun & _ & Hlog).
  rewrite Hall in Hrun. injection Hrun as <-. exact Hlog.
Qed.

(** C10 (the result is never [None]), as the code has it.  The fetch returns
    a list, or raises [TypeError] from the removal of duplicates when the
    name of a kept entry is a list or a dictionary; it never returns [None],
    and no cycle leaves by the [None] check. *)
Theorem fetch_never_none :
  (forall reply,
      (exists games, SteamAPI.get_all_free_games reply = Ok (Some games))
      \/ (SteamAPI.get_all_free_games reply = Raise TypeError
          /\ exists merged,
               SteamAPI.get_featured_free_games reply = Ok merged
               /\ Exists (fun g => hash_key (name g) = None) merged))
  /\ (forall reply channel role (b : bot chat),
        (check_free_games channel_send reply channel role b).2 <> Ok FetchFailed).
Proof.
  assert (Hfetch : forall reply,
      (exists games, SteamAPI.get_all_free_games reply = Ok (Some games))
      \/ (SteamAPI.get_all_free_games reply = Raise TypeError
          /\ exists merged,
               SteamAPI.get_featured_free_games reply = Ok merged
               /\ Exists (fun g => hash_key (name g) = None) merged)).
  { intros reply.
    pose proof (get_featured_free_games_eq reply) as Hf.
    rewrite (get_all_free_games_eq reply _ Hf).
    destruct (unique_by_name_outcome (SteamAPI.featured_request reply []).1)
      as [[u ->]|[-> Hex]].
    - left. eauto.
    - right. eauto. }
  split; [exact Hfetch|].
  intros reply channel role b. rewrite check_free_games_eq.
  destruct (Hfetch reply) as [[games ->]|[-> _]]; simpl.
  - destruct channel; [destruct role|]; simpl; discriminate.
  - discriminate.
Qed.

End NotificationClaims.

(** ** The model run on concrete catalogues *)

Module Runs.
Import Reference.

(** The filter at work: 99 is out, 100 is in. *)
Example featured_of_catalogue :
  SteamAPI.get_featured_free_games (featured catalogue)
  = Ok [offer "Alpha" 1999; offer "Alpha" 1999; offer "Gamma" 250].
Proof. vm_compute. reflexivity. Qed.

Example discount_99_excluded : fully_discounted (entry "Beta" 99 500) = false.
Proof. reflexivity. Qed.

Example discount_absent_excluded :
  fully_discounted (PyDict [("name", PyStr "Delta")]) = false.
Proof. reflexivity. Qed.

Example discount_float_100_included :
  fully_discounted (PyDict [("discount_percent", PyFloat 100)]) = true.
Proof. reflexivity. Qed.

(** The whole fetch: the second "Alpha" is dropped. *)
Example all_of_catalogue :
  SteamAPI.get_all_free_games (featured catalogue)
  = Ok (Some [offer "Alpha" 1999; offer "Gamma" 250]).
Proof. vm_compute. reflexivity. Qed.

(** Raw price 1999 is rendered as 19.99. *)
Example price_1999 : fixed2 (1999 # 100) = "19.99".
Proof. vm_compute. reflexivity. Qed.

(** An entry that cannot be processed ends the scan; the records built before
    it are returned. *)
Example scan_cut_short :
  SteamAPI.get_featured_free_games
    (featured [entry "Alpha" 100 1999; PyStr "oops"; entry "Gamma" 100 250])
  = Ok [offer "Alpha" 1999].
Proof. vm_compute. reflexivity. Qed.

(** The examples of the delta: a known game is not added, an empty fetch
    clears the snapshot, a first cycle adds everything. *)
Example delta_known_and_new :
  new_games {["A - Free"]} [labelled "A" "Free"; labelled "B" "Free"]
  = [labelled "B" "Free"]
  /\ current_games [labelled "A" "Free"; labelled "B" "Free"]
     = {["A - Free"; "B - Free"]}.
Proof. split; vm_compute; reflexivity. Qed.

Example delta_empty_fetch :
  new_games {["A - Free"]} [] = [] /\ current_games [] = (∅ : gset string).
Proof. split; reflexivity. Qed.

Example delta_cold_start :
  new_games ∅ [labelled "A" "Free"] = [labelled "A" "Free"].
Proof. vm_compute. reflexivity. Qed.

(** A first cycle on the catalogue reports on both fetched games. *)
Lemma delta_correctness_witness :
  exists b',
    check_free_games (send []) (featured catalogue) (Some tt) (Some role) start
    = (b', Ok Completed)
    /\ reported (log b') = reported (log start) ++ (name <$> new_games ∅ fetched).
Proof.
  apply (proj2 (proj2 (proj2 (proj2 (delta_correctness (send []) ∅ fetched))))).
  - vm_compute. reflexivity.
  - reflexivity.
Defined.

(** An empty fetch replaces a non-empty snapshot. *)
Lemma snapshot_replacement_witness :
  exists games,
    SteamAPI.get_all_free_games (featured []) = Ok (Some games)
    /\ previous_games
         (check_free_games (send []) (featured []) (Some tt) (Some role) stale).1
       = current_games games
    /\ (forall k,
          k ∈ previous_games
                (check_free_games (send []) (featured []) (Some tt) (Some role) stale).1
          <-> exists g, g ∈ games /\ identity_key g = k)
    /\ (games = [] ->
        previous_games
          (check_free_games (send []) (featured []) (Some tt) (Some role) stale).1
        = ∅).
Proof.
  apply (snapshot_replacement (send []) (featured []) (Some tt) (Some role) stale).
  vm_compute. reflexivity.
Defined.

Example empty_fetch_clears_snapshot :
  previous_games
    (check_free_games (send []) (featured []) (Some tt) (Some role) stale).1
  = ∅.
Proof. vm_compute. reflexivity. Qed.

Lemma filter_correctness_witness :
  exists free_games,
    SteamAPI.get_featured_free_games (featured catalogue) = Ok free_games
    /\ Forall2 (fun e g => record_of e = Ok g)
               (filter (fun e => fully_discounted e = true) catalogue) free_games.
Proof.
  apply (filter_correctness featured_data specials_section catalogue).
  - reflexivity.
  - reflexivity.
  - repeat constructor.
Defined.

Lemma dedup_correctness_witness :
  exists unique_games,
    SteamAPI.get_all_free_games (featured catalogue) = Ok (Some unique_games)
    /\ sublist unique_games [offer "Alpha" 1999; offer "Alpha" 1999; offer "Gamma" 250]
    /\ NoDup (name_key <$> unique_games)
    /\ (forall g, g ∈ [offer "Alpha" 1999; offer "Alpha" 1999; offer "Gamma" 250] ->
                  name_key g ∈ name_key <$> unique_games)
    /\ (forall g, g ∈ unique_games ->
          exists before after,
            [offer "Alpha" 1999; offer "Alpha" 1999; offer "Gamma" 250]
            = before ++ g :: after
            /\ name_key g ∉ name_key <$> before)
    /\ length unique_games
       = (length [offer "Alpha" 1999; offer "Alpha" 1999; offer "Gamma" 250]
          - duplicates_beyond_first
              [offer "Alpha" 1999; offer "Alpha" 1999; offer "Gamma" 250])%nat.
Proof.
  apply (dedup_correctness (featured catalogue)).
  - vm_compute. reflexivity.
  - repeat constructor; eexists; reflexivity.
Defined.

Example one_duplicate :
  duplicates_beyond_first [offer "Alpha" 1999; offer "Alpha" 1999; offer "Gamma" 250]
  = 1%nat.
Proof. vm_compute. reflexivity. Qed.

Lemma price_normalization_witness :
  exists r,
    number_value (PyInt 1999) = Some r
    /\ original_price (offer "Alpha" 1999) = PyFloat (binary64 (r / 100))
    /\ (Qabs (binary64 (r / 100) - r / 100) <= (1 # 2) * ulp (r / 100))%Q
    /\ ((0 <= r)%Q -> (0 <= binary64 (r / 100))%Q).
Proof.
  refine (proj2 (price_normalization
                   [("id", PyInt 440); ("name", PyStr "Alpha");
                    ("discount_percent", PyInt 100); ("original_price", PyInt 1999);
                    ("large_capsule_image", PyStr "https://cdn.example/capsule.jpg");
                    ("discount_expiration", PyInt 1700000000)])
            (offer "Alpha" 1999) _).
  vm_compute. reflexivity.
Defined.

(** Raw 1999 gives the float written 19.99. *)
Example price_1999_float :
  binary64 (inject_Z 1999 / 100) = 5626684784446013 # 281474976710656
  /\ fixed2 (binary64 (inject_Z 1999 / 100)) = "19.99".
Proof. split; vm_compute; reflexivity. Qed.

(** A price beyond 53 bits loses its cent: raw 10^18 + 1 gives 1e16. *)
Example price_rounded :
  binary64 (inject_Z (10 ^ 18 + 1) / 100) = inject_Z (10 ^ 16).
Proof. vm_compute. reflexivity. Qed.

(** C5, the claim as stated: a negative raw price gives a negative price. *)
Lemma price_negative_counterexample :
  SteamAPI.get_featured_free_games (featured [entry "Refund" 100 (-1999)])
  = Ok [{| name := PyStr "Refund";
           image_url := PyStr "https://cdn.example/capsule.jpg";
           status := "Free to Keep!";
           store_url := "https://store.steampowered.com/app/440";
           original_price := PyFloat (binary64 (inject_Z (-1999) / 100));
           discount_end := PyInt 1700000000 |}]
  /\ ~ (0 <= binary64 (inject_Z (-1999) / 100))%Q.
Proof.
  split; [vm_compute; reflexivity|].
  assert (Hv : binary64 (inject_Z (-1999) / 100)
               = (- (5626684784446013 # 281474976710656))%Q) by (vm_compute; reflexivity).
  rewrite Hv. intros Hle. unfold Qle in Hle. simpl in Hle. lia.
Qed.

(** Two cycles on the same catalogue: the second sends nothing. *)
Lemma noop_cycle_idempotence_witness :
  let b1 := (check_free_games (send []) (featured catalogue) (Some tt) (Some role)
               start).1 in
  let b2 := (check_free_games (send []) (featured catalogue) (Some tt) (Some role)
               b1).1 in
  discord b2 = discord b1
  /\ previous_games b2 = previous_games b1
  /\ log b2 = log b1 ++ [Checking; CurrentFreeGames (previous_games b1);
                         NewGamesDetected []].
Proof.
  apply (proj2 (noop_cycle_idempotence (send []) fetched)
           (featured catalogue) (Some tt) (Some role) (Some tt) (Some role) start).
  - vm_compute. reflexivity.
  - vm_compute. reflexivity.
  - vm_compute. reflexivity.
Defined.

Lemma missing_field_defaults_witness :
  image_url bare_offer = PyNone
  /\ discount_end bare_offer = PyInt 0
  /\ original_price bare_offer = PyInt 0
  /\ (notify_guarded (send []) tt role bare_offer start).2 = Ok tt.
Proof.
  assert (Hrec : record_of (PyDict bare_items) = Ok bare_offer)
    by (vm_compute; reflexivity).
  destruct (missing_field_defaults (send []) bare_items bare_offer Hrec)
    as (Himage & Hend & Hprice & Hsafe).
  split; [apply Himage; reflexivity|].
  split; [apply Hend; reflexivity|].
  split; [apply Hprice; reflexivity|].
  apply Hsafe.
Defined.

(** C8, the claim as stated: without the field the expiry of the record is
    0, not [None]. *)
Lemma expiry_default_counterexample :
  SteamAPI.get_featured_free_games (featured [PyDict bare_items]) = Ok [bare_offer]
  /\ discount_end bare_offer <> PyNone.
Proof. split; [vm_compute; reflexivity | discriminate]. Qed.

(** The embed of such a record: no "Offer Ends" field. *)
Example bare_offer_embed :
  run_local (offer_embed bare_offer) tt
  = Ok {| title := PyStr "Delta";
          description := "Free to Keep!" +:+ newline +:+ "Original Price: $0.00";
          url := "https://store.steampowered.com/app/None";
          thumbnail := Some PyNone;
          fields := [("Store Page",
                      "[Click here](https://store.steampowered.com/app/None)")] |}.
Proof. vm_compute. reflexivity. Qed.

(** The chat refuses "Beta": "Gamma", after it, is still sent. *)
Lemma send_isolation_witness :
  exists b',
    for_each ([offer "Alpha" 1999] ++ offer "Beta" 500 :: [offer "Gamma" 250])
      (notify_guarded (send ["Beta"]) tt role) start
    = (b', Ok tt)
    /\ for_each [offer "Gamma" 250] (notify_guarded (send ["Beta"]) tt role)
         (logged
            (notify (send ["Beta"]) tt role (offer "Beta" 500)
               (for_each [offer "Alpha" 1999]
                  (notify_guarded (send ["Beta"]) tt role) start).1).1
            [ErrorSending (name (offer "Beta" 500)) HTTPException])
       = (b', Ok tt)
    /\ reported (log b')
       = reported (log start)
         ++ (name <$> [offer "Alpha" 1999] ++ offer "Beta" 500 :: [offer "Gamma" 250]).
Proof.
  apply (send_isolation (send ["Beta"]) tt role
           [offer "Alpha" 1999] (offer "Beta" 500) [offer "Gamma" 250] start).
  vm_compute. reflexivity.
Defined.

Example gamma_delivered_after_beta_failed :
  (fun m => title m.2) <$>
    discord (for_each [offer "Alpha" 1999; offer "Beta" 500; offer "Gamma" 250]
               (notify_guarded (send ["Beta"]) tt role) start).1
  = [PyStr "Alpha"; PyStr "Gamma"].
Proof. vm_compute. reflexivity. Qed.

Lemma fetch_never_none_witness :
  (check_free_games (send []) unhashable_reply (Some tt) (Some role) start).2
  <> Ok FetchFailed.
Proof.
  apply (proj2 (fetch_never_none (send [])) unhashable_reply (Some tt) (Some role) start).
Defined.

(** C10, the claim as stated: on this reply the fetch returns no list, it
    raises. *)
Lemma fetch_raises_counterexample :
  SteamAPI.get_all_free_games unhashable_reply = Raise TypeError
  /\ ~ (exists games, SteamAPI.get_all_free_games unhashable_reply = Ok (Some games)).
Proof.
  assert (Hraise : SteamAPI.get_all_free_games unhashable_reply = Raise TypeError)
    by (vm_compute; reflexivity).
  split; [exact Hraise|]. intros [games Hgames]. rewrite Hraise in Hgames. discriminate.
Qed.

(** The exception leaves the cycle too: the snapshot is not touched. *)
Example unhashable_name_ends_cycle :
  check_free_games (send []) unhashable_reply (Some tt) (Some role) stale
  = (logged stale [Checking], Raise TypeError).
Proof. vm_compute. reflexivity. Qed.

End Runs.

(** * Further properties of the fetcher *)

Section FetcherMore.
Context `{PyText}.

(** The second source never yields a game: whatever the specials page
    request came to, and whether its text has "-100%" or not, the result is
    the empty list and nothing is raised. *)
Theorem special_source_inert (reply : page_reply) :
  get_special_free_games reply = Ok [].
Proof.
  unfold get_special_free_games, run_local, try_except, bind, get_state, ret.
  destruct reply as [|status_code [page|]]; simpl; try reflexivity.
  - destruct (status_code =? 200); simpl; [|reflexivity].
    unfold bind, lift, ret. destruct (py_contains "-100%" page); reflexivity.
  - destruct (status_code =? 200); reflexivity.
Qed.

(** A decoded body of the wrong shape gives no game and no exception: a
    body that is not an object, an object without "specials", a "specials"
    that is not an object, a "specials" without "items". *)
Theorem wrong_shape_gives_no_games :
  (forall body, (forall items, body <> PyDict items) ->
     SteamAPI.get_featured_free_games (Response 200 (Some body)) = Ok [])
  /\ (forall data, dict_lookup "specials" data = None ->
        SteamAPI.get_featured_free_games (Response 200 (Some (PyDict data))) = Ok [])
  /\ (forall data specials,
        dict_lookup "specials" data = Some specials ->
        (forall items, specials <> PyDict items) ->
        SteamAPI.get_featured_free_games (Response 200 (Some (PyDict data))) = Ok [])
  /\ (forall data section,
        dict_lookup "specials" data = Some (PyDict section) ->
        dict_lookup "items" section = None ->
        SteamAPI.get_featured_free_games (Response 200 (Some (PyDict data))) = Ok []).
Proof.
  repeat split.
  - intros body Hbody. rewrite get_featured_free_games_eq. simpl.
    destruct body; try reflexivity. exfalso. eapply Hbody. reflexivity.
  - intros data Hs. rewrite get_featured_free_games_eq. simpl.
    unfold bind, lift, py_get at 1. rewrite Hs. reflexivity.
  - intros data specials Hs Hno. rewrite get_featured_free_games_eq. simpl.
    unfold bind, lift, py_get at 1. rewrite Hs. simpl.
    destruct specials; try reflexivity. exfalso. eapply Hno. reflexivity.
  - intros data section Hs Hi. rewrite get_featured_free_games_eq. simpl.
    unfold bind, lift, py_get at 1. rewrite Hs. simpl. rewrite Hi. reflexivity.
Qed.

(** The record of an object whose price cannot be normalised is not built. *)
Lemma record_of_bad_price (items : list (string * pyval)) :
  price_ok (dict_lookup "original_price" items) = false ->
  exists e, record_of (PyDict items) = Raise e.
Proof.
  unfold price_ok, record_of, run_local, SteamAPI.free_game_of, py_get, bind, ret.
  destruct (dict_lookup "original_price" items) as [v|]; simpl; [|discriminate].
  destruct (py_truthy v); simpl; [|discriminate].
  destruct v as [| |z| | | |]; simpl; try discriminate; try (eexists; reflexivity).
  intros Hlt. apply Z.ltb_ge in Hlt.
  destruct (Z.leb_spec (100 * float_limit) (Z.abs z)); [|lia].
  eexists. reflexivity.
Qed.

(** An entry that is not well formed raises, and leaves the list alone. *)
Lemma ill_formed_entry_raises (entry : pyval) (free_games : list free_game) :
  well_formed_entry entry = false ->
  exists e, SteamAPI.keep_if_free entry free_games = (free_games, Raise e).
Proof.
  intros Hbad. rewrite keep_if_free_eq.
  destruct entry as [| | | | | |items]; try (eexists; reflexivity).
  unfold well_formed_entry in Hbad.
  destruct (fully_discounted (PyDict items)); simpl in Hbad; [|discriminate].
  destruct (record_of_bad_price items Hbad) as [e ->]. eexists. reflexivity.
Qed.

(** An entry the scan cannot process ends the scan: the records of the
    well-formed entries before it are returned, the entries after it are not
    looked at, and nothing is raised. *)
Theorem failed_entry_cuts_scan (data section : list (string * pyval))
    (good : list pyval) (bad : pyval) (rest : list pyval) :
  dict_lookup "specials" data = Some (PyDict section) ->
  dict_lookup "items" section = Some (PyList (good ++ bad :: rest)) ->
  Forall (fun e => well_formed_entry e = true) good ->
  well_formed_entry bad = false ->
  exists free_games,
    SteamAPI.get_featured_free_games (Response 200 (Some (PyDict data)))
    = Ok free_games
    /\ Forall2 (fun e g => record_of e = Ok g)
               (filter (fun e => fully_discounted e = true) good) free_games.
Proof.
  intros Hs Hi Hgood Hbad.
  rewrite get_featured_free_games_eq, (featured_request_scan _ _ _ _ Hs Hi).
  destruct (scan_well_formed good [] Hgood) as (kept & Hrun & Hkept).
  exists kept. split; [|exact Hkept].
  rewrite for_each_app. unfold bind at 1. rewrite Hrun. simpl.
  unfold bind. destruct (ill_formed_entry_raises bad kept Hbad) as [e ->].
  reflexivity.
Qed.

(** What the request leaves in the list is what a scan of some entries
    leaves. *)
Lemma featured_request_is_scan (reply : http_reply) :
  exists entries,
    (SteamAPI.featured_request reply []).1
    = (for_each entries SteamAPI.keep_if_free []).1.
Proof.
  destruct reply as [|status_code [body|]]; simpl.
  - exists []. reflexivity.
  - destruct (status_code =? 200); [|exists []; reflexivity].
    unfold bind, lift. simpl.
    destruct body as [| | | | | |data]; try (exists []; reflexivity). simpl.
    destruct (default (PyDict []) (dict_lookup "specials" data))
      as [| | | | | |section]; try (exists []; reflexivity). simpl.
    destruct (default (PyList []) (dict_lookup "items" section))
      as [| | | |s|l|d]; try (exists []; reflexivity); simpl; eexists; reflexivity.
  - destruct (status_code =? 200); exists []; reflexivity.
Qed.

(** The constant parts of a record. *)
Lemma record_of_shape (entry : pyval) (g : free_game) :
  record_of entry = Ok g ->
  status g = "Free to Keep!"
  /\ exists id, store_url g = "https://store.steampowered.com/app/" +:+ py_str id.
Proof.
  unfold record_of, run_local, SteamAPI.free_game_of.
  destruct entry as [| | | | | |items]; try discriminate.
  unfold py_get, bind, ret. simpl.
  destruct (py_truthy _); simpl.
  - destruct (default (PyInt 0) _) as [| |z| | | |]; simpl; try discriminate.
    + intros [= <-]. simpl. split; [reflexivity | eexists; reflexivity].
    + destruct (100 * float_limit <=? Z.abs z); simpl; [discriminate|].
      intros [= <-]. simpl. split; [reflexivity | eexists; reflexivity].
    + intros [= <-]. simpl. split; [reflexivity | eexists; reflexivity].
  - intros [= <-]. simpl. split; [reflexivity | eexists; reflexivity].
Qed.

(** Every record the fetcher returns, on any reply, has the status
    "Free to Keep!", a price that is 0 or a float, a store address under
    [/app/], and a key that ends in that status. *)
Theorem fetched_record_shape (reply : http_reply) (free_games : list free_game)
    (g : free_game) :
  SteamAPI.get_featured_free_games reply = Ok free_games ->
  g ∈ free_games ->
  status g = "Free to Keep!"
  /\ (original_price g = PyInt 0 \/ exists q, original_price g = PyFloat q)
  /\ (exists id, store_url g = "https://store.steampowered.com/app/" +:+ py_str id)
  /\ identity_key g = py_str (name g) +:+ " - Free to Keep!".
Proof.
  rewrite get_featured_free_games_eq. intros [= <-] Hg.
  destruct (featured_request_is_scan reply) as [entries Hscan].
  rewrite Hscan in Hg.
  destruct (scan_keeps_only_free entries []) as (kept & Hkept & Hall).
  rewrite Hkept in Hg. simpl in Hg.
  rewrite Forall_forall in Hall. destruct (Hall g Hg) as (e & _ & _ & Hrec).
  destruct (record_of_shape e g Hrec) as (Hstatus & Hurl).
  split; [exact Hstatus|]. split; [exact (record_of_price e g Hrec)|].
  split; [exact Hurl|]. unfold identity_key. rewrite Hstatus. reflexivity.
Qed.

End FetcherMore.

Section FetchFailures.
Context `{PyText}.

(** C6 (fetch totality), as the code has it.  Whatever the request came
    to, the fetcher returns a list and raises nothing: every failure inside
    the [try] is caught, and the list returned is the list as the failure
    left it.  It is empty when the request could not be carried out, when
    the status is not 200 and when the body cannot be decoded; when an entry
    fails while the collection is scanned, it holds the records of the
    entries before that entry. *)
Theorem fetch_failure_handling :
  (forall reply, exists free_games,
      SteamAPI.get_featured_free_games reply = Ok free_games)
  /\ (forall reply free_games e,
        SteamAPI.featured_request reply [] = (free_games, Raise e) ->
        SteamAPI.get_featured_free_games reply = Ok free_games)
  /\ SteamAPI.get_featured_free_games RequestFailed = Ok []
  /\ (forall status_code json, status_code <> 200 ->
        SteamAPI.get_featured_free_games (Response status_code json) = Ok [])
  /\ (forall status_code,
        SteamAPI.get_featured_free_games (Response status_code None) = Ok [])
  /\ (forall (data section : list (string * pyval)) (good : list pyval)
             (bad : pyval) (rest : list pyval),
        dict_lookup "specials" data = Some (PyDict section) ->
        dict_lookup "items" section = Some (PyList (good ++ bad :: rest)) ->
        Forall (fun e => well_formed_entry e = true) good ->
        well_formed_entry bad = false ->
        exists e free_games,
          SteamAPI.featured_request (Response 200 (Some (PyDict data))) []
          = (free_games, Raise e)
          /\ SteamAPI.get_featured_free_games (Response 200 (Some (PyDict data)))
             = Ok free_games
          /\ Forall2 (fun entry g => record_of entry = Ok g)
                     (filter (fun entry => fully_discounted entry = true) good)
                     free_games).
Proof.
  split; [|split; [|split; [|split; [|split]]]].
  - intros reply. eexists. apply get_featured_free_games_eq.
  - intros reply free_games e Hraise.
    rewrite get_featured_free_games_eq, Hraise. reflexivity.
  - reflexivity.
  - intros status_code json Hne. rewrite get_featured_free_games_eq. simpl.
    destruct (Z.eqb_spec status_code 200); [contradiction | reflexivity].
  - intros status_code. rewrite get_featured_free_games_eq. simpl.
    destruct (status_code =? 200); reflexivity.
  - intros data section good bad rest Hs Hi Hgood Hbad.
    destruct (scan_well_formed good [] Hgood) as (kept & Hrun & Hkept).
    destruct (ill_formed_entry_raises bad kept Hbad) as [e Hraise].
    assert (Hreq : SteamAPI.featured_request (Response 200 (Some (PyDict data))) []
                   = (kept, Raise e)).
    { rewrite (featured_request_scan _ _ _ _ Hs Hi), for_each_app.
      unfold bind at 1. rewrite Hrun. simpl. unfold bind. rewrite Hraise.
      reflexivity. }
    exists e, kept. split; [exact Hreq|]. split; [|exact Hkept].
    rewrite get_featured_free_games_eq, Hreq. reflexivity.
Qed.

End FetchFailures.

Section DuplicatesMore.
Context `{PyText}.

Lemma sublist_same_length {A} (l1 l2 : list A) :
  sublist l1 l2 -> (length l2 <= length l1)%nat -> l1 = l2.
Proof.
  induction 1 as [|x l1 l2 Hsub IH|x l1 l2 Hsub IH]; simpl; intros Hlen.
  - reflexivity.
  - f_equal. apply IH. lia.
  - apply sublist_length in Hsub. lia.
Qed.

(** No name of the list was met before and no name comes twice: nothing is
    a repeat. *)
Lemma repeats_fresh (games : list free_game) (earlier : list hkey) :
  NoDup (name_key <$> games) ->
  (forall g, g ∈ games -> name_key g ∉ earlier) ->
  repeats earlier games = 0%nat.
Proof.
  revert earlier. induction games as [|game games IH]; intros earlier Hnd Hfresh.
  - reflexivity.
  - simpl. rewrite fmap_cons in Hnd. apply NoDup_cons in Hnd as [Hhead Hnd].
    rewrite bool_decide_false by (apply Hfresh; left). simpl.
    apply IH; [exact Hnd|]. intros g Hg. rewrite not_elem_of_cons. split.
    + intros Heq. apply Hhead. rewrite <- Heq. apply list_elem_of_fmap. eauto.
    + apply Hfresh. right. exact Hg.
Qed.

(** What a result of the removal of duplicates tells. *)
Lemma unique_by_name_ok (games unique_games : list free_game) :
  SteamAPI.unique_by_name games = Ok unique_games ->
  Forall hashable_name games
  /\ sublist unique_games games
  /\ NoDup (name_key <$> unique_games)
  /\ (length unique_games + repeats [] games = length games)%nat.
Proof.
  intros Hok.
  assert (dec : forall g, {hashable_name g} + {hash_key (name g) = None}).
  { intros g. unfold hashable_name.
    destruct (hash_key (name g)); [left; eauto | right; reflexivity]. }
  destruct (Forall_Exists_dec _ _ dec games) as [Hall|Hex].
  - split; [exact Hall|].
    destruct (unique_loop games Hall [] [])
      as (seen' & kept & Hrun & Hsub & Hnd & _ & _ & _ & Hlen).
    revert Hok. unfold SteamAPI.unique_by_name, run_local, bind.
    change (∅ : gset hkey) with (list_to_set [] : gset hkey). rewrite Hrun.
    simpl. intros [= <-]. auto.
  - exfalso. pose proof (unique_loop_unhashable games Hex (∅, [])) as Hraise.
    revert Hok. unfold SteamAPI.unique_by_name, run_local, bind.
    destruct (for_each games SteamAPI.keep_if_unseen (∅, [])) as [st [[]|e]];
      simpl in *; discriminate.
Qed.

(** A list whose names are hashable and all different goes through the
    removal of duplicates unchanged. *)
Theorem distinct_names_all_kept (games : list free_game) :
  Forall hashable_name games ->
  NoDup (name_key <$> games) ->
  SteamAPI.unique_by_name games = Ok games.
Proof.
  intros Hall Hnd.
  destruct (unique_loop games Hall [] [])
    as (seen' & kept & Hrun & Hsub & _ & _ & _ & _ & Hlen).
  rewrite (repeats_fresh games [] Hnd) in Hlen
    by (intros g _; apply not_elem_of_nil).
  unfold SteamAPI.unique_by_name, run_local, bind.
  change (∅ : gset hkey) with (list_to_set [] : gset hkey). rewrite Hrun. simpl.
  f_equal. apply sublist_same_length; [exact Hsub | lia].
Qed.

(** Removing duplicates from a list without duplicates changes nothing:
    the result of the removal is a fixed point of it. *)
Theorem unique_by_name_idempotent (games unique_games : list free_game) :
  SteamAPI.unique_by_name games = Ok unique_games ->
  SteamAPI.unique_by_name unique_games = Ok unique_games.
Proof.
  intros Hok. destruct (unique_by_name_ok _ _ Hok) as (Hall & Hsub & Hnd & _).
  assert (Hall' : Forall hashable_name unique_games).
  { rewrite Forall_forall in Hall |- *. intros g Hg.
    apply Hall. eapply elem_of_sublist; eassumption. }
  destruct (unique_loop unique_games Hall' [] [])
    as (seen' & kept & Hrun & Hsub' & _ & _ & _ & _ & Hlen).
  rewrite (repeats_fresh unique_games [] Hnd) in Hlen
    by (intros g _; apply not_elem_of_nil).
  unfold SteamAPI.unique_by_name, run_local, bind.
  change (∅ : gset hkey) with (list_to_set [] : gset hkey). rewrite Hrun. simpl.
  f_equal. apply sublist_same_length; [exact Hsub' | lia].
Qed.

End DuplicatesMore.

(** * The session of the fetcher *)

Section Session.

Lemma created_app (l1 l2 : list session_event) :
  created (l1 ++ l2) = (created l1 + created l2)%nat.
Proof. unfold created. rewrite List.filter_app, length_app. reflexivity. Qed.

Lemma closed_app (l1 l2 : list session_event) :
  closed (l1 ++ l2) = (closed l1 + closed l2)%nat.
Proof. unfold closed. rewrite List.filter_app, length_app. reflexivity. Qed.

Lemma session_call_balanced (c : session_call) (self : steam_api) :
  balanced self -> balanced (run_session_call c self).1.
Proof.
  unfold balanced. intros Hb.
  destruct c; unfold run_session_call, ensure_session, close;
    destruct (session self) eqn:Hs; cbn [fst aiohttp session];
    rewrite ?Hs; try exact Hb;
    rewrite created_app, closed_app; cbn; lia.
Qed.

End Session.

Section SessionClaims.
Context `{PyText}.

Lemma session_calls_total (calls : list session_call) (self : steam_api) :
  (for_each calls run_session_call self).2 = Ok tt.
Proof.
  apply for_each_total. intros c s.
  destruct c; unfold run_session_call, ensure_session, close;
    destruct (session s); reflexivity.
Qed.

(** Whatever calls to [ensure_session] and [close] are made on a new
    [SteamAPI] object, in whatever order, the sessions it created are the
    sessions it closed plus the one it holds: there is never more than one
    session open, and none is created while one is held. *)
Theorem session_balance (calls : list session_call) :
  let self := (for_each calls run_session_call new_steam_api).1 in
  balanced self
  /\ (created (aiohttp self) <= closed (aiohttp self) + 1)%nat.
Proof.
  simpl.
  assert (Hb : balanced (for_each calls run_session_call new_steam_api).1).
  { apply (for_each_preserves balanced).
    - intros c s. apply session_call_balanced.
    - reflexivity. }
  split; [exact Hb|]. unfold balanced in Hb. rewrite Hb.
  destruct (session _); lia.
Qed.

(** After [close], whatever was called before, the object holds no session
    and every session it created is closed. *)
Theorem close_releases_session (calls : list session_call) :
  let self := (for_each (calls ++ [Close]) run_session_call new_steam_api).1 in
  session self = None /\ created (aiohttp self) = closed (aiohttp self).
Proof.
  simpl.
  assert (Heq : (for_each (calls ++ [Close]) run_session_call new_steam_api).1
                = (close (for_each calls run_session_call new_steam_api).1).1).
  { rewrite for_each_app. unfold bind.
    pose proof (session_calls_total calls new_steam_api) as Htotal.
    destruct (for_each calls run_session_call new_steam_api) as [self r].
    simpl in Htotal. subst r. simpl. unfold bind.
    destruct (close self) as [self' [[]|e]]; reflexivity. }
  rewrite Heq. clear Heq.
  assert (Hb : balanced (for_each calls run_session_call new_steam_api).1).
  { apply (for_each_preserves balanced).
    - intros c s. apply session_call_balanced.
    - reflexivity. }
  revert Hb. generalize (for_each calls run_session_call new_steam_api).1.
  intros self Hb. unfold balanced in Hb. unfold close.
  destruct (session self) as [serial|] eqn:Hs; cbn [fst session aiohttp].
  - split; [reflexivity|]. rewrite created_app, closed_app. cbn. lia.
  - split; [exact Hs|]. lia.
Qed.

(** The fetch of a cycle closes the session it opened when the fetch
    returns; when the fetch raises, [close] is not reached and the session
    stays open. *)
Theorem fetch_games_session (reply : http_reply) :
  match SteamAPI.get_all_free_games reply with
  | Ok games =>
      fetch_games reply new_steam_api
      = ({| session := None;
            aiohttp := [SessionCreated 0; SessionClosed 0] |}, Ok games)
  | Raise e =>
      fetch_games reply new_steam_api
      = ({| session := Some 0%nat; aiohttp := [SessionCreated 0] |}, Raise e)
  end.
Proof.
  unfold fetch_games, bind, lift, ensure_session, close, new_steam_api. simpl.
  destruct (SteamAPI.get_all_free_games reply); reflexivity.
Qed.

End SessionClaims.

(** * Further properties of the cycle *)

Section CycleMore.
Context `{PyText} {chat Channel : Type}.
Variable channel_send : Channel -> string -> Embed -> Py chat unit.

(** A request that failed gives the empty list. *)
Lemma failed_request_fetch (reply : http_reply) :
  request_failed reply = true ->
  SteamAPI.get_all_free_games reply = Ok (Some []).
Proof.
  intros Hfail.
  assert (Hf : SteamAPI.get_featured_free_games reply = Ok []).
  { rewrite get_featured_free_games_eq.
    destruct reply as [|status_code json]; simpl in *; [reflexivity|].
    destruct (status_code =? 200); simpl in *; [|reflexivity].
    destruct json; [discriminate | reflexivity]. }
  rewrite (get_all_free_games_eq reply [] Hf). reflexivity.
Qed.

Lemma failed_request_cycle_eq (reply : http_reply) (channel : Channel)
    (role : Role) (b : bot chat) :
  request_failed reply = true ->
  check_free_games channel_send reply (Some channel) (Some role) b
  = ({| previous_games := ∅;
        discord := discord b;
        log := log b ++ [Checking; CurrentFreeGames ∅; NewGamesDetected []] |},
     Ok Completed).
Proof.
  intros Hfail. rewrite check_free_games_eq, (failed_request_fetch reply Hfail).
  simpl. rewrite (left_id_L ∅ (∪)). reflexivity.
Qed.

(** A cycle whose request failed still runs to its end: it sends nothing,
    and it empties the snapshot, whatever the snapshot held. *)
Theorem failed_request_clears_snapshot (reply : http_reply) (channel : Channel)
    (role : Role) (b : bot chat) :
  request_failed reply = true ->
  exists b',
    check_free_games channel_send reply (Some channel) (Some role) b
    = (b', Ok Completed)
    /\ previous_games b' = ∅
    /\ discord b' = discord b
    /\ reported (log b') = reported (log b).
Proof.
  intros Hfail. rewrite (failed_request_cycle_eq reply channel role b Hfail).
  eexists. split; [reflexivity|]. simpl.
  rewrite reported_app. simpl. rewrite app_nil_r. auto.
Qed.

(** The added list against the keys of an earlier fetch. *)
Lemma new_games_after (earlier latest : list free_game) :
  new_games (current_games earlier) latest
  = filter (fun g => identity_key g ∉ identity_key <$> earlier) latest.
Proof.
  unfold new_games, current_games. apply list_filter_iff. intros g.
  rewrite elem_of_list_to_set. reflexivity.
Qed.

(** A cycle that fetched [latest] from a bot with snapshot [previous]. *)
Lemma completed_cycle_reports (reply : http_reply) (channel : Channel)
    (role : Role) (latest : list free_game) (b : bot chat) :
  SteamAPI.get_all_free_games reply = Ok (Some latest) ->
  exists b',
    check_free_games channel_send reply (Some channel) (Some role) b
    = (b', Ok Completed)
    /\ previous_games b' = current_games latest
    /\ reported (log b')
       = reported (log b) ++ (name <$> new_games (previous_games b) latest).
Proof.
  intros Hfetch. rewrite check_free_games_eq, Hfetch. simpl.
  match goal with
  | |- context [for_each ?l ?f ?s] =>
      destruct (notify_loop_spec channel_send channel role l s)
        as (b' & Hrun & _ & Hlog)
  end.
  rewrite Hrun. simpl. eexists. split; [reflexivity|]. simpl.
  split; [apply (left_id_L ∅ (∪))|].
  rewrite Hlog. simpl. rewrite reported_app. simpl. rewrite app_nil_r. reflexivity.
Qed.

(** After an outage everything is announced again: the cycle that follows
    a cycle whose request failed reports on every game it fetches, also on
    those that were in the snapshot before the outage. *)
Theorem outage_rearms_all (failed reply : http_reply)
    (channel channel' : Channel) (role role' : Role)
    (latest : list free_game) (b : bot chat) :
  request_failed failed = true ->
  SteamAPI.get_all_free_games reply = Ok (Some latest) ->
  let b1 := (check_free_games channel_send failed (Some channel) (Some role) b).1 in
  exists b2,
    check_free_games channel_send reply (Some channel') (Some role') b1
    = (b2, Ok Completed)
    /\ reported (log b2) = reported (log b1) ++ (name <$> latest).
Proof.
  intros Hfail Hfetch. simpl.
  rewrite (failed_request_cycle_eq failed channel role b Hfail). simpl.
  destruct (completed_cycle_reports reply channel' role' latest
              {| previous_games := ∅; discord := discord b;
                 log := log b ++ [Checking; CurrentFreeGames ∅; NewGamesDetected []] |}
              Hfetch) as (b2 & Hrun & _ & Hlog).
  exists b2. split; [exact Hrun|]. rewrite Hlog. simpl. f_equal. f_equal.
  unfold new_games. apply filter_all, Forall_forall. intros g _.
  apply not_elem_of_empty.
Qed.

(** The memory of the bot is one cycle deep: after a cycle that ran to its
    end having fetched [earlier], the next cycle reports on exactly the
    games of its own fetch whose key is the key of no game of [earlier],
    whatever happened before. *)
Theorem added_depends_on_last_fetch (reply1 reply2 : http_reply)
    (channel1 : option Channel) (role1 : option Role)
    (channel : Channel) (role : Role)
    (earlier latest : list free_game) (b b1 : bot chat) :
  SteamAPI.get_all_free_games reply1 = Ok (Some earlier) ->
  SteamAPI.get_all_free_games reply2 = Ok (Some latest) ->
  check_free_games channel_send reply1 channel1 role1 b = (b1, Ok Completed) ->
  exists b2,
    check_free_games channel_send reply2 (Some channel) (Some role) b1
    = (b2, Ok Completed)
    /\ reported (log b2)
       = reported (log b1)
         ++ (name <$> filter (fun g => identity_key g ∉ identity_key <$> earlier)
                             latest).
Proof.
  intros Hf1 Hf2 Hc1.
  assert (Hprev : previous_games b1 = current_games earlier).
  { rewrite check_free_games_eq, Hf1 in Hc1.
    destruct channel1; [|discriminate]. destruct role1; [|discriminate].
    simpl in Hc1. injection Hc1 as <-. simpl. apply (left_id_L ∅ (∪)). }
  destruct (completed_cycle_reports reply2 channel role latest b1 Hf2)
    as (b2 & Hrun & _ & Hlog).
  exists b2. split; [exact Hrun|].
  rewrite Hlog, Hprev, new_games_after. reflexivity.
Qed.

(** A cycle that does not run to its end, because the channel or the role
    is missing or because the fetch raised, changes nothing but the log: the
    snapshot and the chat are as before and no game is reported on. *)
Theorem unfinished_cycle_changes_nothing (reply : http_reply)
    (channel : option Channel) (role : option Role) (b b' : bot chat)
    (r : result cycle_exit) :
  check_free_games channel_send reply channel role b = (b', r) ->
  r <> Ok Completed ->
  previous_games b' = previous_games b
  /\ discord b' = discord b
  /\ reported (log b') = reported (log b).
Proof.
  rewrite check_free_games_eq.
  destruct (SteamAPI.get_all_free_games reply) as [[games|]|e];
    [destruct channel; [destruct role|]| |];
    simpl; intros [= <- <-] Hr; simpl;
    rewrite ?reported_app; simpl; rewrite ?app_nil_r; auto.
  contradiction Hr. reflexivity.
Qed.

End CycleMore.

Section NotificationMore.
Context `{PyText} {chat Channel : Type}.
Variable channel_send : Channel -> string -> Embed -> Py chat unit.

(** The text of a price that is 0 or a float. *)
Lemma format_price {S} (price : pyval) (s : S) :
  price = PyInt 0 \/ (exists q, price = PyFloat q) ->
  py_format_2f price s
  = (s, Ok (fixed2 (match price with PyFloat q => q | _ => 0%Q end))).
Proof.
  intros [->|[q ->]]; simpl; [|reflexivity].
  pose proof float_limit_positive.
  destruct (Z.leb_spec float_limit 0); [lia | reflexivity].
Qed.

(** The embed of a game whose expiry can be rendered: the title is the
    name, the thumbnail the image, and the fields are "Offer Ends" with the
    rendered instant, then "Store Page" with the link. *)
Theorem embed_with_expiry (g : free_game) (end_text : string) :
  original_price g = PyInt 0 \/ (exists q, original_price g = PyFloat q) ->
  py_truthy (discount_end g) = true ->
  utc_minute (discount_end g) = Ok end_text ->
  forall S (s : S),
    offer_embed g s =
    (s, Ok {| title := name g;
              description :=
                status g +:+ newline +:+ "Original Price: $"
                +:+ fixed2 (match original_price g with PyFloat q => q | _ => 0%Q end);
              url := store_url g;
              thumbnail := Some (image_url g);
              fields := [("Offer Ends", end_text);
                         ("Store Page", "[Click here](" +:+ store_url g +:+ ")")] |}).
Proof.
  intros Hprice Htruthy Hend S s.
  unfold offer_embed, bind. rewrite (format_price _ s Hprice), Htruthy.
  unfold lift. rewrite Hend. reflexivity.
Qed.

(** A game whose expiry is set but cannot be rendered is not announced: the
    exception is caught, an error is logged for the game, and nothing is
    sent to the chat. *)
Theorem unrenderable_expiry_suppresses (channel : Channel) (role : Role)
    (g : free_game) (e : exn) (b : bot chat) :
  original_price g = PyInt 0 \/ (exists q, original_price g = PyFloat q) ->
  py_truthy (discount_end g) = true ->
  utc_minute (discount_end g) = Raise e ->
  notify_guarded channel_send channel role g b
  = (logged b [ErrorSending (name g) e], Ok tt).
Proof.
  intros Hprice Htruthy Hend.
  unfold notify_guarded, try_except, notify, bind at 1.
  unfold offer_embed, bind. rewrite (format_price _ b Hprice), Htruthy.
  unfold lift. rewrite Hend. reflexivity.
Qed.

End NotificationMore.

Section SnapshotMore.
Context `{PyText} {chat Channel : Type}.
Variable channel_send : Channel -> string -> Embed -> Py chat unit.

Lemma string_length_app (s t : string) :
  String.length (s +:+ t) = (String.length s + String.length t)%nat.
Proof. induction s as [|c s IH]; simpl; [reflexivity | rewrite IH; reflexivity]. Qed.

(** Two strings with a common suffix and equal as wholes are equal. *)
Lemma string_app_cancel_r (s1 s2 t : string) :
  s1 +:+ t = s2 +:+ t -> s1 = s2.
Proof.
  revert s2. induction s1 as [|c s1 IH]; intros [|c' s2] Heq.
  - reflexivity.
  - apply (f_equal String.length) in Heq.
    rewrite !string_length_app in Heq. simpl in Heq. lia.
  - apply (f_equal String.length) in Heq.
    rewrite !string_length_app in Heq. simpl in Heq. lia.
  - injection Heq as -> Heq. f_equal. apply IH, Heq.
Qed.

Lemma NoDup_fmap_through {A B C} (f : A -> B) (k : A -> C) (l : list A) :
  (forall x y, x ∈ l -> y ∈ l -> f x = f y -> k x = k y) ->
  NoDup (k <$> l) -> NoDup (f <$> l).
Proof.
  induction l as [|a l IH]; intros Hinj Hnd; [constructor|].
  rewrite fmap_cons in Hnd. rewrite fmap_cons. apply NoDup_cons in Hnd as [Hhead Hnd].
  apply NoDup_cons. split.
  - intros Hin. apply list_elem_of_fmap in Hin as (y & Hy1 & Hy2).
    apply Hhead. apply list_elem_of_fmap. exists y. split; [|exact Hy2].
    apply Hinj; [left | right; exact Hy2 | exact Hy1].
  - apply IH; [|exact Hnd]. intros x y Hx Hy. apply Hinj; right; assumption.
Qed.

(** What the whole fetch returns is what the removal of duplicates makes of
    what the request left. *)
Lemma get_all_free_games_unique (reply : http_reply) (games : list free_game) :
  SteamAPI.get_all_free_games reply = Ok (Some games) ->
  SteamAPI.unique_by_name (SteamAPI.featured_request reply []).1 = Ok games.
Proof.
  rewrite (get_all_free_games_eq reply _ (get_featured_free_games_eq reply)).
  destruct (SteamAPI.unique_by_name _); [intros [= ->]; reflexivity | discriminate].
Qed.

(** The status of every game the whole fetch returns. *)
Lemma fetched_status (reply : http_reply) (games : list free_game) (g : free_game) :
  SteamAPI.get_all_free_games reply = Ok (Some games) ->
  g ∈ games ->
  status g = "Free to Keep!".
Proof.
  intros Hfetch Hg. apply get_all_free_games_unique in Hfetch.
  destruct (unique_by_name_ok _ _ Hfetch) as (_ & Hsub & _).
  pose proof (elem_of_sublist _ _ _ Hg Hsub) as Hin.
  destruct (featured_request_is_scan reply) as [entries Hscan].
  rewrite Hscan in Hin.
  destruct (scan_keeps_only_free entries []) as (kept & Hkept & Hall).
  rewrite Hkept in Hin. simpl in Hin.
  rewrite Forall_forall in Hall. destruct (Hall g Hin) as (e & _ & _ & Hrec).
  apply (record_of_shape e g Hrec).
Qed.

(** When the names of the fetched games are strings, their keys are all
    different: the snapshot has one key for each game, and no key is
    announced twice in a cycle. *)
Theorem fetched_keys_distinct (reply : http_reply) (games : list free_game) :
  SteamAPI.get_all_free_games reply = Ok (Some games) ->
  Forall string_named games ->
  NoDup (identity_key <$> games)
  /\ size (current_games games) = length games.
Proof.
  intros Hfetch Hnamed.
  assert (Hnd : NoDup (identity_key <$> games)).
  { destruct (unique_by_name_ok _ _ (get_all_free_games_unique _ _ Hfetch))
      as (_ & _ & Hnd & _).
    apply (NoDup_fmap_through identity_key name_key); [|exact Hnd].
    rewrite Forall_forall in Hnamed.
    intros x y Hx Hy Hkey.
    destruct (Hnamed x Hx) as [sx Hsx]. destruct (Hnamed y Hy) as [sy Hsy].
    unfold identity_key in Hkey.
    rewrite (fetched_status reply games x Hfetch Hx),
            (fetched_status reply games y Hfetch Hy), Hsx, Hsy in Hkey.
    simpl in Hkey. apply string_app_cancel_r in Hkey.
    unfold name_key. rewrite Hsx, Hsy. simpl. congruence. }
  split; [exact Hnd|].
  unfold current_games. rewrite size_list_to_set by exact Hnd.
  apply length_fmap.
Qed.

(** What a run of the cycle does to the snapshot: nothing, or it puts the
    keys of its fetch. *)
Lemma cycle_snapshot_cases (reply : http_reply) (channel : option Channel)
    (role : option Role) (b : bot chat) :
  previous_games (check_free_games channel_send reply channel role b).1
  = previous_games b
  \/ exists games,
       SteamAPI.get_all_free_games reply = Ok (Some games)
       /\ previous_games (check_free_games channel_send reply channel role b).1
          = current_games games.
Proof.
  rewrite check_free_games_eq.
  destruct (SteamAPI.get_all_free_games reply) as [[games|]|e];
    [destruct channel; [destruct role|]| |]; simpl; auto.
  right. exists games. split; [reflexivity | apply (left_id_L ∅ (∪))].
Qed.

(** However many times the cycle runs, by the timer or by the command, and
    whatever each run meets, the snapshot is what it was at the start or the
    set of the keys of one fetch: keys of different fetches are never
    mixed. *)
Theorem snapshot_never_accumulates (ticks : list (tick Channel))
    (b : bot chat) :
  previous_games (run_cycles channel_send ticks b) = previous_games b
  \/ exists t games,
       t ∈ ticks
       /\ SteamAPI.get_all_free_games (tick_reply t) = Ok (Some games)
       /\ previous_games (run_cycles channel_send ticks b) = current_games games.
Proof.
  revert b. induction ticks as [|t ticks IH]; intros b; [left; reflexivity|].
  change (run_cycles channel_send (t :: ticks) b)
    with (run_cycles channel_send ticks
            (check_free_games channel_send (tick_reply t) (tick_channel t)
               (tick_role t) b).1).
  destruct (IH (check_free_games channel_send (tick_reply t) (tick_channel t)
                  (tick_role t) b).1) as [Hsame|(t' & games & Ht' & Hf & Hp)].
  - rewrite Hsame.
    destruct (cycle_snapshot_cases (tick_reply t) (tick_channel t) (tick_role t) b)
      as [Hkeep|(games & Hf & Hp)].
    + left. exact Hkeep.
    + right. exists t, games. split; [left | auto].
  - right. exists t', games. split; [right; exact Ht' | auto].
Qed.

(** Starting from an empty snapshot, every key the snapshot ever holds is
    the text of a name followed by " - Free to Keep!". *)
Theorem snapshot_key_shape (ticks : list (tick Channel))
    (b : bot chat) (k : string) :
  previous_games b = ∅ ->
  k ∈ previous_games (run_cycles channel_send ticks b) ->
  exists n, k = py_str n +:+ " - Free to Keep!".
Proof.
  intros Hempty.
  assert (Hinv : forall b0 : bot chat,
             (forall k0, k0 ∈ previous_games b0 ->
                         exists n, k0 = py_str n +:+ " - Free to Keep!") ->
             forall k0, k0 ∈ previous_games (run_cycles channel_send ticks b0) ->
                        exists n, k0 = py_str n +:+ " - Free to Keep!").
  { induction ticks as [|t ticks IH]; intros b0 Hb0; [exact Hb0|].
    change (run_cycles channel_send (t :: ticks) b0)
      with (run_cycles channel_send ticks
              (check_free_games channel_send (tick_reply t) (tick_channel t)
                 (tick_role t) b0).1).
    apply IH. intros k0.
    destruct (cycle_snapshot_cases (tick_reply t) (tick_channel t) (tick_role t) b0)
      as [->|(games & Hf & ->)]; [apply Hb0|].
    unfold current_games. rewrite elem_of_list_to_set, list_elem_of_fmap.
    intros (g & -> & Hg). exists (name g). unfold identity_key.
    rewrite (fetched_status _ _ g Hf Hg). reflexivity. }
  apply Hinv. intros k0. rewrite Hempty. intros Hin.
  exfalso. exact (not_elem_of_empty k0 Hin).
Qed.

End SnapshotMore.

(** * The further properties on concrete catalogues *)

Module MoreRuns.
Import Reference Samples.

Lemma wrong_shape_gives_no_games_witness :
  SteamAPI.get_featured_free_games
    (Response 200 (Some (PyDict [("status", PyInt 1)]))) = Ok [].
Proof.
  apply (proj1 (proj2 wrong_shape_gives_no_games) [("status", PyInt 1)]).
  reflexivity.
Defined.

(** The string price of "Beta" ends the scan: "Alpha" is returned, "Gamma"
    is not. *)
Lemma failed_entry_cuts_scan_witness :
  exists free_games,
    SteamAPI.get_featured_free_games (Response 200 (Some (PyDict broken_data)))
    = Ok free_games
    /\ Forall2 (fun e g => record_of e = Ok g)
               (filter (fun e => fully_discounted e = true) [entry "Alpha" 100 1999])
               free_games.
Proof.
  apply (failed_entry_cuts_scan broken_data broken_section
           [entry "Alpha" 100 1999] string_price [entry "Gamma" 100 250]).
  - reflexivity.
  - reflexivity.
  - repeat constructor.
  - reflexivity.
Defined.

Example string_price_loses_gamma :
  SteamAPI.get_featured_free_games (Response 200 (Some (PyDict broken_data)))
  = Ok [offer "Alpha" 1999].
Proof. vm_compute. reflexivity. Qed.

Lemma fetched_record_shape_witness :
  status (offer "Gamma" 250) = "Free to Keep!"
  /\ (original_price (offer "Gamma" 250) = PyInt 0
      \/ exists q, original_price (offer "Gamma" 250) = PyFloat q)
  /\ (exists id, store_url (offer "Gamma" 250)
                 = "https://store.steampowered.com/app/" +:+ py_str id)
  /\ identity_key (offer "Gamma" 250)
     = py_str (name (offer "Gamma" 250)) +:+ " - Free to Keep!".
Proof.
  apply (fetched_record_shape (featured catalogue)
           [offer "Alpha" 1999; offer "Alpha" 1999; offer "Gamma" 250]).
  - vm_compute. reflexivity.
  - repeat constructor.
Defined.

Lemma distinct_names_all_kept_witness :
  SteamAPI.unique_by_name fetched = Ok fetched.
Proof.
  apply (distinct_names_all_kept fetched).
  - repeat constructor; eexists; reflexivity.
  - apply (bool_decide_unpack _). vm_compute. exact I.
Defined.

Lemma unique_by_name_idempotent_witness :
  SteamAPI.unique_by_name fetched = Ok fetched.
Proof.
  apply (unique_by_name_idempotent
           [offer "Alpha" 1999; offer "Alpha" 1999; offer "Gamma" 250] fetched).
  vm_compute. reflexivity.
Defined.

(** A new object, a fetch and its close: one session, created and closed. *)
Example session_of_a_cycle :
  fetch_games (featured catalogue) new_steam_api
  = ({| session := None; aiohttp := [SessionCreated 0; SessionClosed 0] |},
     Ok (Some fetched)).
Proof. vm_compute. reflexivity. Qed.

(** The fetch that raises leaves its session open. *)
Example session_left_open :
  fetch_games unhashable_reply new_steam_api
  = ({| session := Some 0%nat; aiohttp := [SessionCreated 0] |}, Raise TypeError).
Proof. vm_compute. reflexivity. Qed.

Lemma failed_request_clears_snapshot_witness :
  exists b',
    check_free_games (send []) (Response 503 None) (Some tt) (Some role) stale
    = (b', Ok Completed)
    /\ previous_games b' = ∅
    /\ discord b' = discord stale
    /\ reported (log b') = reported (log stale).
Proof.
  apply (failed_request_clears_snapshot (send []) (Response 503 None) tt role stale).
  reflexivity.
Defined.

Lemma outage_rearms_all_witness :
  let b1 := (check_free_games (send []) RequestFailed (Some tt) (Some role)
               (check_free_games (send []) (featured catalogue) (Some tt)
                  (Some role) start).1).1 in
  exists b2,
    check_free_games (send []) (featured catalogue) (Some tt) (Some role) b1
    = (b2, Ok Completed)
    /\ reported (log b2) = reported (log b1) ++ (name <$> fetched).
Proof.
  apply (outage_rearms_all (send []) RequestFailed (featured catalogue)
           tt tt role role fetched).
  - reflexivity.
  - vm_compute. reflexivity.
Defined.

(** "Alpha" is announced by the first cycle, again by the cycle after the
    outage. *)
Example alpha_announced_twice :
  (fun m => title m.2) <$>
    discord (run_cycles (send [])
               [ {| tick_reply := featured catalogue;
                    tick_channel := Some tt; tick_role := Some role |};
                 {| tick_reply := RequestFailed;
                    tick_channel := Some tt; tick_role := Some role |};
                 {| tick_reply := featured catalogue;
                    tick_channel := Some tt; tick_role := Some role |} ]
               start)
  = [PyStr "Alpha"; PyStr "Gamma"; PyStr "Alpha"; PyStr "Gamma"].
Proof. vm_compute. reflexivity. Qed.

Lemma added_depends_on_last_fetch_witness :
  exists b2,
    check_free_games (send []) (featured catalogue) (Some tt) (Some role)
      (check_free_games (send []) (featured [entry "Alpha" 100 1999]) (Some tt)
         (Some role) stale).1
    = (b2, Ok Completed)
    /\ reported (log b2)
       = reported
           (log (check_free_games (send []) (featured [entry "Alpha" 100 1999])
                   (Some tt) (Some role) stale).1)
         ++ (name <$> filter (fun g => identity_key g
                                        ∉ identity_key <$> [offer "Alpha" 1999])
                             fetched).
Proof.
  apply (added_depends_on_last_fetch (send [])
           (featured [entry "Alpha" 100 1999]) (featured catalogue)
           (Some tt) (Some role) tt role [offer "Alpha" 1999] fetched stale).
  - vm_compute. reflexivity.
  - vm_compute. reflexivity.
  - vm_compute. reflexivity.
Defined.

Lemma unfinished_cycle_changes_nothing_witness :
  let b' := (check_free_games (send []) (featured catalogue) None (Some role)
               stale).1 in
  previous_games b' = previous_games stale
  /\ discord b' = discord stale
  /\ reported (log b') = reported (log stale).
Proof.
  apply (unfinished_cycle_changes_nothing (send []) (featured catalogue)
           None (Some role) stale _ (Ok NoChannel)).
  - vm_compute. reflexivity.
  - discriminate.
Defined.

Lemma embed_with_expiry_witness :
    offer_embed (offer "Alpha" 1999) tt =
    (tt, Ok {| title := PyStr "Alpha";
              description :=
                "Free to Keep!" +:+ newline +:+ "Original Price: $"
                +:+ fixed2 (binary64 (inject_Z 1999 / 100));
              url := "https://store.steampowered.com/app/440";
              thumbnail := Some (PyStr "https://cdn.example/capsule.jpg");
              fields := [("Offer Ends", "2023-11-14 22:13 UTC");
                         ("Store Page",
                          "[Click here](" +:+ "https://store.steampowered.com/app/440"
                          +:+ ")")] |}).
Proof.
  refine (embed_with_expiry (offer "Alpha" 1999) "2023-11-14 22:13 UTC" _ _ _ unit tt).
  - right. eexists. reflexivity.
  - reflexivity.
  - vm_compute. reflexivity.
Defined.

Lemma unrenderable_expiry_suppresses_witness :
  notify_guarded (send []) tt role far_expiry start
  = (logged start [ErrorSending (PyStr "Omega") ValueError], Ok tt).
Proof.
  apply (unrenderable_expiry_suppresses (send []) tt role far_expiry ValueError start).
  - left. reflexivity.
  - reflexivity.
  - vm_compute. reflexivity.
Defined.

Lemma fetched_keys_distinct_witness :
  NoDup (identity_key <$> fetched)
  /\ size (current_games fetched) = length fetched.
Proof.
  apply (fetched_keys_distinct (featured catalogue) fetched).
  - vm_compute. reflexivity.
  - repeat constructor; eexists; reflexivity.
Defined.

(** After the day the snapshot is the key set of the last catalogue. *)
Example snapshot_after_day :
  previous_games (run_cycles (send []) day start) = {["Gamma - Free to Keep!"]}.
Proof. vm_compute. reflexivity. Qed.

Lemma snapshot_key_shape_witness :
  exists n, "Gamma - Free to Keep!" = py_str n +:+ " - Free to Keep!".
Proof.
  apply (snapshot_key_shape (send []) day start "Gamma - Free to Keep!").
  - reflexivity.
  - apply (bool_decide_unpack _). vm_compute. exact I.
Defined.

(** The string price of "Beta" raises inside the [try]; the failure is
    caught and "Alpha", built before it, is returned. *)
Lemma fetch_failure_handling_witness :
  exists e free_games,
    SteamAPI.featured_request (Response 200 (Some (PyDict broken_data))) []
    = (free_games, Raise e)
    /\ SteamAPI.get_featured_free_games (Response 200 (Some (PyDict broken_data)))
       = Ok free_games
    /\ Forall2 (fun entry g => record_of entry = Ok g)
               (filter (fun entry => fully_discounted entry = true)
                       [entry "Alpha" 100 1999])
               free_games.
Proof.
  apply (proj2 (proj2 (proj2 (proj2 (proj2 fetch_failure_handling))))
           broken_data broken_section
           [entry "Alpha" 100 1999] string_price [entry "Gamma" 100 250]).
  - reflexivity.
  - reflexivity.
  - repeat constructor.
  - reflexivity.
Defined.

(** C6, the claim as stated: a failure that is caught does not always give
    the empty list. *)
Lemma caught_failure_counterexample :
  SteamAPI.featured_request (Response 200 (Some (PyDict broken_data))) []
  = ([offer "Alpha" 1999], Raise TypeError)
  /\ SteamAPI.get_featured_free_games (Response 200 (Some (PyDict broken_data)))
     = Ok [offer "Alpha" 1999]
  /\ SteamAPI.get_featured_free_games (Response 200 (Some (PyDict broken_data)))
     <> Ok [].
Proof.
  assert (Hget : SteamAPI.get_featured_free_games
                   (Response 200 (Some (PyDict broken_data)))
                 = Ok [offer "Alpha" 1999]) by (vm_compute; reflexivity).
  split; [vm_compute; reflexivity|]. split; [exact Hget|].
  rewrite Hget. discriminate.
Qed.

End MoreRuns.
